(** * PyPD: constitutive laws and the rigid penetrator

    A shallow embedding of [src/pypd/constitutive_law.py],
    [src/classes/penetrator.py] and [src/pypd/animation.py].

    Numbers.  Python floats and numpy float64 scalars are idealised as the
    real numbers [R]: rounding, overflow, [inf] and [nan] are outside the
    model.  What is kept of the float semantics is what decides control
    flow: Python's [/] on floats raises [ZeroDivisionError] on a zero
    divisor, [0.0] is falsy in [c or ...], and comparisons are the order of
    [R].  Step counters are integers ([Z]), particle indices are [nat].

    Objects.  A class body is the sequence of its [def] statements; the
    class namespace is the dictionary obtained by executing them in order,
    so a later [def] rebinds the name of an earlier one.  A call through an
    instance passes the instance as first positional argument, and a
    function whose parameter list cannot take the arguments given raises
    [TypeError]. *)

From Stdlib Require Import Reals Lra Lia List ZArith.
From stdpp Require Import base option list gmap strings pretty.

#[local] Open Scope R_scope.
#[local] Unset Default Proof Using.

(** ** A fragment of the Python runtime *)

Module Py.

Inductive exn : Set :=
| TypeError
| AttributeError
| IndexError
| ValueError
| ZeroDivisionError
| NotImplementedError.

(** The outcome of evaluating an expression: a value, or an exception that
    unwinds to the caller. *)
Inductive result (A : Type) : Type :=
| Ok (a : A)
| Raise (e : exn).
Arguments Ok {A} a.
Arguments Raise {A} e.

#[export] Instance result_ret : MRet result := fun _ a => Ok a.
#[export] Instance result_bind : MBind result := fun _ _ k m =>
  match m with
  | Ok a => k a
  | Raise e => Raise e
  end.
#[export] Instance result_fmap : FMap result := fun _ _ f m =>
  match m with
  | Ok a => Ok (f a)
  | Raise e => Raise e
  end.

Definition raises {A} (m : result A) : Prop := exists e, m = Raise e.

(** [x / y] on Python floats. *)
Definition truediv (x y : R) : result R :=
  if Req_dec_T y 0 then Raise ZeroDivisionError else Ok (x / y).

(** [v or k] where [v] is an optional float argument defaulting to [None]:
    [None] and [0.0] are falsy, and the right operand is evaluated only
    then. *)
Definition or_else (v : option R) (k : result R) : result R :=
  match v with
  | None => k
  | Some r => if Req_dec_T r 0 then k else Ok r
  end.

(** [seq[i]] on a sequence. *)
Definition getitem {A} (l : list A) (i : nat) : result A :=
  match l !! i with
  | Some a => Ok a
  | None => Raise IndexError
  end.

Section Class.
Context {D : Type}.

(** Executing a class body: every [def name] stores into the namespace
    being built, replacing what the name was bound to. *)
Definition class_dict (body : list (string * D)) : gmap string D :=
  foldl (fun ns d => <[d.1 := d.2]> ns) ∅ body.

(** Attribute lookup on a class: the namespaces of the class and of its
    bases, in method resolution order. *)
Fixpoint mro_lookup (mro : list (gmap string D)) (name : string)
  : option D :=
  match mro with
  | [] => None
  | ns :: bases =>
      match ns !! name with
      | Some d => Some d
      | None => mro_lookup bases name
      end
  end.

(** Binding positional arguments to a [def] that has neither defaults
    nor [*args]. *)
Definition bind_positional (declared given : nat) : result unit :=
  if decide (declared = given) then Ok tt else Raise TypeError.
End Class.

End Py.
Import Py.

(** ** A fragment of numpy on one-dimensional arrays *)

Module np.

Definition pi : R := PI.

(** [np.sqrt]; on a negative argument numpy yields [nan] (with a
    warning, no exception), which the real-valued model does not
    represent. *)
Definition sqrt (a : R) : R := R_sqrt.sqrt a.

Definition exp (a : R) : R := Rtrigo_def.exp a.

(** Division of numpy scalars: a zero divisor gives [inf] or [nan] with a
    warning, never an exception; that value is outside the model. *)
Definition truediv (a b : R) : R := a / b.

Definition sum (a : list R) : R := foldr Rplus 0 a.

(** [a - b] with numpy's broadcasting of a one-element operand. *)
Definition sub (a b : list R) : result (list R) :=
  if decide (length a = length b) then Ok (zip_with Rminus a b)
  else match a, b with
       | [x], _ => Ok (map (Rminus x) b)
       | _, [y] => Ok (map (fun x => x - y) a)
       | _, _ => Raise ValueError
       end.

(** [a + s] for an array [a] and a scalar [s]. *)
Definition add_scalar (a : list R) (s : R) : list R :=
  map (fun x => x + s) a.

Definition zeros_like (a : list R) : list R := map (fun _ => 0) a.

End np.

(** ** Collaborators: the data the core reads *)

Module Material.
Record t : Type := { E : R; Gf : R; ft : R; density : R }.
End Material.

Module ParticleSet.
Record t : Type := {
  n_nodes : nat;
  x : list (list R);
  u : list (list R);
  v : list (list R);
  cell_volume : list R;
  horizon : R;
  material : Material.t
}.
End ParticleSet.

Module Simulation.
Record t : Type := { n_time_steps : Z; dt : R }.
End Simulation.

(** ** [classes/penetrator.py] *)

Module Penetrator.

(** An instance, by its attributes. *)
Record instance : Type := {
  ID : Z;
  centre : list R;
  radius : R;
  search_radius : R;
  family : list nat
}.

(** The objects that flow through the methods of the class. *)
Inductive value : Type :=
| VNone
| VInt (z : Z)
| VFloat (r : R)
| VArray (a : list R)
| VArray2 (a : list (list R))
| VIndices (a : list nat)
| VParticles (p : ParticleSet.t)
| VSimulation (s : Simulation.t)
| VPenetrator (self : instance).

(** The [def] statements of the class body, in textual order.  The name
    [update_penetrator_position] is defined twice: at line 35 with
    parameters [(self, i_time_step, n_time_steps)] and at line 61 with an
    empty parameter list. *)
Inductive def : Set :=
| def___init__
| def__build_family
| def_update_penetrator_position_35
| def_calculate_penetrator_force
| def_update_penetrator_position_61.

Definition class_body : list (string * def) :=
  [ ("__init__", def___init__);
    ("_build_family", def__build_family);
    ("update_penetrator_position", def_update_penetrator_position_35);
    ("calculate_penetrator_force", def_calculate_penetrator_force);
    ("update_penetrator_position", def_update_penetrator_position_61) ]%string.

(** Number of declared positional parameters, [self] included where the
    source declares it. *)
Definition parameters (d : def) : nat :=
  match d with
  | def___init__ => 5
  | def__build_family => 2
  | def_update_penetrator_position_35 => 3
  | def_calculate_penetrator_force => 4
  | def_update_penetrator_position_61 => 0
  end.

Definition getattr (name : string) : option def :=
  class_dict class_body !! name.

(** [np.sqrt(np.sum((particles.x[i] - self.centre)) ** 2)]: the power binds
    tighter than the call to [np.sqrt], and applies to the sum. *)
Definition distance (xi centre : list R) : result R :=
  diff ← np.sub xi centre;
  Ok (np.sqrt (np.sum diff ^ 2)).

(** The loop of [_build_family] over the indices still to visit. *)
Fixpoint build_family_loop (self : instance) (particles : ParticleSet.t)
  (indices : list nat) (family : list nat) : result (list nat) :=
  match indices with
  | [] => Ok family
  | i :: indices' =>
      xi ← getitem (ParticleSet.x particles) i;
      d ← distance xi (centre self);
      build_family_loop self particles indices'
        (if Rle_dec d (search_radius self) then family ++ [i] else family)
  end.

Definition _build_family (self : instance) (particles : ParticleSet.t)
  : result (list nat) :=
  build_family_loop self particles
    (seq 0 (ParticleSet.n_nodes particles)) [].

Section Externals.

(** [solver.calculate.smooth_step_data(i, x_start, x_end, y_start, y_end)]
    and [solver.calculate.calculate_contact_force], imported by the module. *)
Variable smooth_step_data : Z -> Z -> Z -> R -> R -> R.
Variable calculate_contact_force :
  list nat -> R -> list R -> list (list R) -> list (list R) ->
  list (list R) -> R -> list R -> R -> list (list R).

(** Body of the [def] at line 35. *)
Definition update_penetrator_position_35 (self : instance)
  (i_time_step n_time_steps : Z) : list R :=
  np.add_scalar (centre self)
    (smooth_step_data i_time_step 0 n_time_steps 0 1e-4).

(** Calling a function object that calls no method itself.  [__init__]
    returns the instance with its attributes assigned. *)
Definition function_call_leaf (d : def) (positional : list value)
  : result value :=
  _ ← bind_positional (parameters d) (length positional);
  match d, positional with
  | def__build_family, [VPenetrator self; VParticles particles] =>
      VIndices <$> _build_family self particles
  | def_update_penetrator_position_35,
    [VPenetrator self; VInt i_time_step; VInt n_time_steps] =>
      Ok (VArray (update_penetrator_position_35 self i_time_step n_time_steps))
  | def_update_penetrator_position_61, [] => Ok VNone
  | _, _ => Raise TypeError
  end.

(** [self.name(args)]: the attribute is found on the class and called with
    the instance in front of the arguments. *)
Definition method_call_leaf (self : instance) (name : string) (args : list value)
  : result value :=
  match getattr name with
  | None => Raise AttributeError
  | Some d => function_call_leaf d (VPenetrator self :: args)
  end.

Definition function_call (d : def) (positional : list value)
  : result value :=
  _ ← bind_positional (parameters d) (length positional);
  match d, positional with
  | def___init__,
    [VPenetrator _; VInt ID; VArray centre; VFloat radius;
     VParticles particles] =>
      let self := {| ID := ID; centre := centre; radius := radius;
                     search_radius := radius * 1.25; family := [] |} in
      fam ← method_call_leaf self "_build_family" [VParticles particles];
      match fam with
      | VIndices family =>
          Ok (VPenetrator {| ID := ID; centre := centre; radius := radius;
                             search_radius := radius * 1.25;
                             family := family |})
      | _ => Raise TypeError
      end
  | def_calculate_penetrator_force,
    [VPenetrator self; VParticles particles; VSimulation simulation;
     i_time_step] =>
      position ← method_call_leaf self "update_penetrator_position"
                   [i_time_step; VInt (Simulation.n_time_steps simulation)];
      match position with
      | VArray position =>
          Ok (VArray2
                (calculate_contact_force (family self) (radius self) position
                   (ParticleSet.x particles) (ParticleSet.u particles)
                   (ParticleSet.v particles)
                   (Material.density (ParticleSet.material particles))
                   (ParticleSet.cell_volume particles)
                   (Simulation.dt simulation)))
      | _ => Raise TypeError
      end
  | _, _ => function_call_leaf d positional
  end.

Definition method_call (self : instance) (name : string) (args : list value)
  : result value :=
  match getattr name with
  | None => Raise AttributeError
  | Some d => function_call d (VPenetrator self :: args)
  end.

(** [Penetrator(ID, centre, radius, particles)]. *)
Definition new (ID : Z) (centre : list R) (radius : R)
  (particles : ParticleSet.t) : result instance :=
  let blank := {| ID := 0; centre := []; radius := 0; search_radius := 0;
                  family := [] |} in
  r ← method_call blank "__init__"
        [VInt ID; VArray centre; VFloat radius; VParticles particles];
  match r with
  | VPenetrator self => Ok self
  | _ => Raise TypeError
  end.

(** [self.update_penetrator_position(i_time_step, n_time_steps)] and
    [self.calculate_penetrator_force(particles, simulation, i_time_step)]
    as a caller writes them. *)
Definition update_penetrator_position (self : instance)
  (i_time_step n_time_steps : value) : result value :=
  method_call self "update_penetrator_position" [i_time_step; n_time_steps].

Definition calculate_penetrator_force (self : instance)
  (particles : ParticleSet.t) (simulation : Simulation.t)
  (i_time_step : value) : result value :=
  method_call self "calculate_penetrator_force"
    [VParticles particles; VSimulation simulation; i_time_step].

End Externals.

(** The Euclidean distance between two position vectors of the same
    dimension, as the specification words the family test. *)
Definition euclidean_distance (a b : list R) : R :=
  R_sqrt.sqrt (np.sum (zip_with (fun p q => (p - q) ^ 2) a b)).

End Penetrator.

(** ** [pypd/constitutive_law.py] *)

Module ConstitutiveLaw.

(** The objects that flow through the methods of the base class.  An
    instance is its attribute dictionary. *)
Inductive value : Type :=
| VNone
| VFloat (r : R)
| VArray (a : list R)
| VMaterial (m : Material.t)
| VParticles (p : ParticleSet.t)
| VInstance (attrs : gmap string R).

(** The [def] statements of the class body.  [__init__] and
    [calculate_bond_damage] are declared with an empty parameter list. *)
Inductive def : Set :=
| def___init__
| def__calculate_bond_stiffness
| def_calculate_bond_damage.

Definition class_body : list (string * def) :=
  [ ("__init__", def___init__);
    ("_calculate_bond_stiffness", def__calculate_bond_stiffness);
    ("calculate_bond_damage", def_calculate_bond_damage) ]%string.

Definition parameters (d : def) : nat :=
  match d with
  | def___init__ => 0
  | def__calculate_bond_stiffness => 3
  | def_calculate_bond_damage => 0
  end.

(** [(9 * material.E) / (np.pi * self.t * particles.horizon**3)], with
    [self.t] as first argument. *)
Definition _calculate_bond_stiffness (self_t : R) (material : Material.t)
  (particles : ParticleSet.t) : result R :=
  truediv (9 * Material.E material)
    (np.pi * self_t * ParticleSet.horizon particles ^ 3).

Definition function_call (d : def) (positional : list value)
  : result value :=
  _ ← bind_positional (parameters d) (length positional);
  match d, positional with
  | def___init__, [] => Ok VNone
  | def__calculate_bond_stiffness,
    [VInstance self; VMaterial material; VParticles particles] =>
      match self !! "t"%string with
      | None => Raise AttributeError
      | Some self_t =>
          VFloat <$> _calculate_bond_stiffness self_t material particles
      end
  | def_calculate_bond_damage, [] => Raise NotImplementedError
  | _, _ => Raise TypeError
  end.

(** [Cls.name(args)], [obj.name(args)] and [Cls(args)] for a class given
    by its method resolution order. *)
Definition class_call (mro : list (gmap string def)) (name : string)
  (args : list value) : result value :=
  match mro_lookup mro name with
  | None => Raise AttributeError
  | Some d => function_call d args
  end.

Definition method_call (mro : list (gmap string def))
  (self : gmap string R) (name : string) (args : list value)
  : result value :=
  match mro_lookup mro name with
  | None => Raise AttributeError
  | Some d => function_call d (VInstance self :: args)
  end.

Definition instantiate (mro : list (gmap string def)) (args : list value)
  : result value :=
  match mro_lookup mro "__init__" with
  | None => match args with [] => Ok (VInstance ∅) | _ => Raise TypeError end
  | Some d => _ ← function_call d (VInstance ∅ :: args); Ok (VInstance ∅)
  end.

Definition mro : list (gmap string def) := [class_dict class_body].

End ConstitutiveLaw.

Module Bilinear.

(** [class Bilinear(ConstitutiveLaw): pass] *)
Definition class_body : list (string * ConstitutiveLaw.def) := [].

Definition mro : list (gmap string ConstitutiveLaw.def) :=
  [class_dict class_body; class_dict ConstitutiveLaw.class_body].

End Bilinear.

Module Linear.

Record instance : Type := {
  t : R;
  c : R;
  sc : R;
  damage_on : bool;
  calculate_bond_damage : list R -> list R -> list R
}.

Definition _calculate_sc (material : Material.t) (particles : ParticleSet.t)
  : result R :=
  q ← truediv (4 * np.pi * Material.Gf material)
        (9 * Material.E material * ParticleSet.horizon particles);
  Ok (np.sqrt q).

Section Kernel.

(** [kernels.constitutive_law.linear(stretch, d, sc)] *)
Variable linear : list R -> list R -> R -> list R.

(** The factory returning the closure stored on the instance. *)
Definition _calculate_bond_damage (sc : R) (damage_on : bool)
  : list R -> list R -> list R :=
  if damage_on
  then fun stretch d => linear stretch d sc
  else fun stretch d => np.zeros_like d.

Definition __init__ (material : Material.t) (particles : ParticleSet.t)
  (t : R) (c sc : option R) (damage_on : bool) : result instance :=
  c ← or_else c
        (ConstitutiveLaw._calculate_bond_stiffness t material particles);
  sc ← or_else sc (_calculate_sc material particles);
  Ok {| t := t; c := c; sc := sc; damage_on := damage_on;
        calculate_bond_damage := _calculate_bond_damage sc damage_on |}.

End Kernel.

End Linear.

Module Trilinear.

Record instance : Type := {
  t : R;
  beta : R;
  gamma : R;
  c : R;
  s0 : R;
  sc : R;
  s1 : R;
  calculate_bond_damage : list R -> list R -> list R
}.

Definition default_beta : R := 0.25.

Definition _calculate_s0 (material : Material.t) : result R :=
  truediv (Material.ft material) (Material.E material).

(** The attributes of [self] that the method reads are its first
    arguments. *)
Definition _calculate_sc (self_t self_gamma self_beta self_c self_s0 : R)
  (material : Material.t) (particles : ParticleSet.t) : result R :=
  let numerator := 4 * self_gamma * Material.Gf material in
  let denominator :=
    self_t * ParticleSet.horizon particles ^ 4 * self_c * self_s0
    * (1 + (self_gamma * self_beta)) in
  q ← truediv numerator denominator;
  Ok (q + self_s0).

Definition _calculate_gamma (self_beta : R) : result R :=
  truediv (3 + (2 * self_beta)) (2 * self_beta * (1 - self_beta)).

Definition _calculate_s1 (self_s0 self_sc self_gamma : R) : result R :=
  q ← truediv (self_sc - self_s0) self_gamma;
  Ok (self_s0 + q).

Section Kernel.

(** [kernels.constitutive_law.trilinear(stretch, d, s0, s1, sc, beta)] *)
Variable trilinear : list R -> list R -> R -> R -> R -> R -> list R.

Definition _calculate_bond_damage (s0 s1 sc beta : R)
  : list R -> list R -> list R :=
  fun stretch d => trilinear stretch d s0 s1 sc beta.

Definition __init__ (material : Material.t) (particles : ParticleSet.t)
  (t : R) (c s0 sc : option R) (beta : R) : result instance :=
  gamma ← _calculate_gamma beta;
  c ← or_else c
        (ConstitutiveLaw._calculate_bond_stiffness t material particles);
  s0 ← or_else s0 (_calculate_s0 material);
  sc ← or_else sc (_calculate_sc t gamma beta c s0 material particles);
  s1 ← _calculate_s1 s0 sc gamma;
  Ok {| t := t; beta := beta; gamma := gamma; c := c; s0 := s0; sc := sc;
        s1 := s1;
        calculate_bond_damage := _calculate_bond_damage s0 s1 sc beta |}.

End Kernel.

End Trilinear.

Module NonLinear.

Record instance : Type := {
  t : R;
  alpha : R;
  k : R;
  c : R;
  s0 : R;
  sc : R;
  calculate_bond_damage : list R -> list R -> list R
}.

Definition default_alpha : R := 0.25.
Definition default_k : R := 25.

Definition _calculate_s0 (material : Material.t) : result R :=
  truediv (Material.ft material) (Material.E material).

(** Every quotient here has a numpy scalar operand ([np.exp] returns
    one), so none raises. *)
Definition _calculate_sc (self_t self_alpha self_k self_c self_s0 : R)
  (material : Material.t) (particles : ParticleSet.t) : R :=
  let horizon := ParticleSet.horizon particles in
  let numerator_a :=
    4 * self_k * (1 - np.exp self_k) * (1 + self_alpha) in
  let numerator_b :=
    np.truediv
      (self_t * self_c * horizon ^ 4 * self_s0 ^ 2
       * ((2 * self_k) - (2 * np.exp self_k) + (self_alpha * self_k)
          - (self_alpha * self_k * np.exp self_k + 2)))
      ((4 * self_k) + (np.exp self_k - 1) * (1 + self_alpha)) in
  let numerator := numerator_a * (Material.Gf material - numerator_b) in
  let denominator_a := self_t * self_c * horizon ^ 4 * self_s0 in
  let denominator_b :=
    (2 * self_k) - (2 * np.exp self_k) + (self_alpha * self_k)
    - (self_alpha * self_k * np.exp self_k) + 2 in
  let denominator := denominator_a * denominator_b in
  np.truediv numerator denominator.

Section Kernel.

(** [kernels.constitutive_law.nonlinear(stretch, d, s0, sc, alpha, k)] *)
Variable nonlinear : list R -> list R -> R -> R -> R -> R -> list R.

Definition _calculate_bond_damage (s0 sc alpha k : R)
  : list R -> list R -> list R :=
  fun stretch d => nonlinear stretch d s0 sc alpha k.

Definition __init__ (material : Material.t) (particles : ParticleSet.t)
  (t : R) (c s0 sc : option R) (alpha k : R) : result instance :=
  c ← or_else c
        (ConstitutiveLaw._calculate_bond_stiffness t material particles);
  s0 ← or_else s0 (_calculate_s0 material);
  sc ← or_else sc (Ok (_calculate_sc t alpha k c s0 material particles));
  Ok {| t := t; alpha := alpha; k := k; c := c; s0 := s0; sc := sc;
        calculate_bond_damage := _calculate_bond_damage s0 sc alpha k |}.

End Kernel.

End NonLinear.

(** ** Collaborators: the functions the core calls

    [solver/calculate.py] and [pypd/kernels/constitutive_law.py] are
    imported by the two modules above and are not part of the sources.
    Their contracts are those of section 6 of the specification; the
    definitions below give one function for each contract. *)

Module Contract.

Definition unit_interval (a : R) : Prop := 0 <= a <= 1.

(** A bond-damage closure [f stretch d]: on arrays of one shape with [d]
    in [[0,1]] the result has that shape, lies in [[0,1]] and is not
    below [d]. *)
Definition bond_damage (f : list R -> list R -> list R) : Prop :=
  forall stretch d : list R,
    length stretch = length d ->
    Forall unit_interval d ->
    length (f stretch d) = length d
    /\ Forall unit_interval (f stretch d)
    /\ Forall2 Rle d (f stretch d).

(** [smooth_step_data]: the end values, and no decrease along [i] when
    the target is above the start. *)
Definition smooth_step (f : Z -> Z -> Z -> R -> R -> R) : Prop :=
  forall x_start x_end y_start y_end,
    (x_start < x_end)%Z ->
    f x_start x_start x_end y_start y_end = y_start
    /\ f x_end x_start x_end y_start y_end = y_end
    /\ (y_start < y_end ->
        forall i j, (i <= j)%Z ->
          f i x_start x_end y_start y_end <= f j x_start x_end y_start y_end).

Definition clamp (a : R) : R := Rmax 0 (Rmin 1 a).

(** Modelled from the spec: [smooth_step_data] of [solver/calculate.py],
    which is missing; the cubic Hermite ease [3t^2 - 2t^3] on the
    normalised, clamped step, scaled to [[y_start, y_end]]. *)
Definition smooth_step_data (i x_start x_end : Z) (y_start y_end : R) : R :=
  let t := clamp ((IZR i - IZR x_start) / (IZR x_end - IZR x_start)) in
  y_start + (y_end - y_start) * (3 * t ^ 2 - 2 * t ^ 3).

(** Modelled from the spec: [calculate_contact_force] of
    [solver/calculate.py], which is missing; the specification fixes only
    that the array is aligned with the particles and zero outside the
    family, which the array of zero vectors meets. *)
Definition calculate_contact_force (family : list nat) (radius : R)
  (position : list R) (x u v : list (list R)) (density : R)
  (cell_volume : list R) (dt : R) : list (list R) :=
  map np.zeros_like x.

(** The damage reached on a softening curve, never below the damage the
    bond already has. *)
Definition ratchet (curve : R -> R) (stretch d : list R) : list R :=
  zip_with (fun s d_prev => Rmax d_prev (clamp (curve s))) stretch d.

(** Modelled from the spec: the kernel [linear] of
    [pypd/kernels/constitutive_law.py], which is missing; damage 0 below
    the critical stretch and 1 from it on. *)
Definition linear (stretch d : list R) (sc : R) : list R :=
  ratchet (fun s => if Rlt_dec s sc then 0 else 1) stretch d.

(** Modelled from the spec: the kernels [trilinear] and [nonlinear] of
    [pypd/kernels/constitutive_law.py], which are missing; damage 0 up to
    [s0] and 1 from [sc] on.  The specification leaves the curve between
    the two to the kernels; the chord is taken here. *)
Definition softening (s0 sc : R) (s : R) : R :=
  if Rle_dec s s0 then 0
  else if Rle_dec sc s then 1
  else (s - s0) / (sc - s0).

Definition trilinear (stretch d : list R) (s0 s1 sc beta : R) : list R :=
  ratchet (softening s0 sc) stretch d.

Definition nonlinear (stretch d : list R) (s0 sc alpha k : R) : list R :=
  ratchet (softening s0 sc) stretch d.

End Contract.

(** ** Concrete inputs used in the examples below *)

Module Fixture.

(** The material and discretisation of the end-to-end scenario of the
    specification. *)
Definition steel : Material.t :=
  {| Material.E := 2e11; Material.Gf := 40; Material.ft := 1e7;
     Material.density := 7850 |}.

Definition no_fracture_energy : Material.t :=
  {| Material.E := 2e11; Material.Gf := 0; Material.ft := 1e7;
     Material.density := 7850 |}.

Definition thickness : R := 0.001.

(** Two particles in the plane, at [(10, -10)] and [(3, 4)]. *)
Definition body : ParticleSet.t :=
  {| ParticleSet.n_nodes := 2;
     ParticleSet.x := [[10; -10]; [3; 4]];
     ParticleSet.u := [[0; 0]; [0; 0]];
     ParticleSet.v := [[0; 0]; [0; 0]];
     ParticleSet.cell_volume := [1e-6; 1e-6];
     ParticleSet.horizon := 0.003;
     ParticleSet.material := steel |}.

(** The same particles with a horizon of zero. *)
Definition collapsed : ParticleSet.t :=
  {| ParticleSet.n_nodes := 2;
     ParticleSet.x := [[10; -10]; [3; 4]];
     ParticleSet.u := [[0; 0]; [0; 0]];
     ParticleSet.v := [[0; 0]; [0; 0]];
     ParticleSet.cell_volume := [1e-6; 1e-6];
     ParticleSet.horizon := 0;
     ParticleSet.material := steel |}.

Definition origin : list R := [0; 0].

Definition ball : Penetrator.instance :=
  {| Penetrator.ID := 1; Penetrator.centre := origin;
     Penetrator.radius := 4.4; Penetrator.search_radius := 4.4 * 1.25;
     Penetrator.family := [0%nat] |}.

Definition run : Simulation.t :=
  {| Simulation.n_time_steps := 1000; Simulation.dt := 1e-8 |}.

End Fixture.

(** ** A fragment of the Python built-ins on sequences *)

Module builtins.

(** [seq[i]] for an [int] index: a negative index counts from the end. *)
Definition getitem_int {A} (l : list A) (i : Z) : result A :=
  let n := Z.of_nat (length l) in
  if (i <? 0)%Z
  then if (i + n <? 0)%Z then Raise IndexError
       else getitem l (Z.to_nat (i + n))
  else getitem l (Z.to_nat i).

(** [min(iterable)] and [max(iterable)]: the first item is the candidate,
    replaced by each later item that compares strictly below (above) it;
    an empty iterable raises [ValueError]. *)
Definition min (l : list R) : result R :=
  match l with
  | [] => Raise ValueError
  | a :: l' =>
      Ok (foldl (fun best item => if Rlt_dec item best then item else best)
            a l')
  end.

Definition max (l : list R) : result R :=
  match l with
  | [] => Raise ValueError
  | a :: l' =>
      Ok (foldl (fun best item => if Rlt_dec best item then item else best)
            a l')
  end.

End builtins.

(** ** The matplotlib objects the animation touches

    Of a figure, an axes and a scatter collection the model keeps what
    [pypd/animation.py] reads and what it asks for: the data of a scatter,
    and on an axes the scatters created and the limits, title, aspect and
    axis switch requested since it was last cleared. *)

Module plt.

Record PathCollection : Type := {
  offsets : list (R * R);
  sizes : list R;
  array : list R;
  cmap : string
}.

Record Axes : Type := {
  collections : list PathCollection;
  xlim : option (R * R);
  ylim : option (R * R);
  title : option string;
  aspect : option (string * string);
  axis : option string
}.

Record Figure : Type := {
  figsize : option (R * R);
  axes : list Axes
}.

(** An axes on which nothing has been requested: the state after
    [ax.clear()], and that of the axes of [plt.subplots()]. *)
Definition cleared : Axes :=
  {| collections := []; xlim := None; ylim := None; title := None;
     aspect := None; axis := None |}.

(** [plt.figure(figsize=...)]: a figure without axes. *)
Definition figure (figsize : R * R) : Figure :=
  {| figsize := Some figsize; axes := [] |}.

(** [offsets.T]: the [N x 2] array of points as its two rows. *)
Definition T (offsets : list (R * R)) : list R * list R :=
  (map fst offsets, map snd offsets).

End plt.

(** ** [pypd/animation.py] *)

Module Animation.

(** An instance.  [self.fig] is the figure made by [plt.subplots()]
    together with [self.ax], its only axes; the model keeps the axes. *)
Record instance : Type := {
  frequency : Z;
  name : string;
  sz : R;
  dsf : R;
  frames : list plt.Figure;
  ax : plt.Axes
}.

(** [f"{timestamp}-animation.gif"], for the reading
    [datetime.now().strftime("%Y%m%d-%H%M%S")] of the clock. *)
Definition _generate_animation_name (timestamp : string) : string :=
  (timestamp +:+ "-animation.gif")%string.

(** [name or self._generate_animation_name()]: [None] and the empty string
    are falsy. *)
Definition name_or (name : option string) (generated : string) : string :=
  match name with
  | None => generated
  | Some s => if decide (s = ""%string) then generated else s
  end.

(** [Animation(frequency, name, sz, dsf)], with the reading of the clock
    as first argument. *)
Definition __init__ (timestamp : string) (frequency : Z)
  (name : option string) (sz dsf : R) : instance :=
  {| frequency := frequency;
     name := name_or name (_generate_animation_name timestamp);
     sz := sz;
     dsf := dsf;
     frames := [];
     ax := plt.cleared |}.

Definition default_frequency : Z := 100.
Definition default_sz : R := 1.
Definition default_dsf : R := 0.

Definition _get_data_from_frame (self : instance) (i : Z)
  : result (list R * list R) :=
  frame ← builtins.getitem_int (frames self) i;
  axes0 ← getitem (plt.axes frame) 0;
  scatter ← getitem (plt.collections axes0) 0;
  Ok (plt.T (plt.offsets scatter)).

Definition set_ax (self : instance) (ax : plt.Axes) : instance :=
  {| frequency := frequency self; name := name self; sz := sz self;
     dsf := dsf self; frames := frames self; ax := ax |}.

(** The instance after the call; an exception is reported without the
    state it leaves behind. *)
Definition _set_axis_limits (self : instance) (i : Z) : result instance :=
  data ← _get_data_from_frame self i;
  let '(x_data, y_data) := data in
  x_min ← builtins.min x_data;
  x_max ← builtins.max x_data;
  let self := set_ax self
    {| plt.collections := plt.collections (ax self);
       plt.xlim := Some (x_min, x_max);
       plt.ylim := plt.ylim (ax self);
       plt.title := plt.title (ax self);
       plt.aspect := plt.aspect (ax self);
       plt.axis := plt.axis (ax self) |} in
  y_min ← builtins.min y_data;
  y_max ← builtins.max y_data;
  Ok (set_ax self
        {| plt.collections := plt.collections (ax self);
           plt.xlim := plt.xlim (ax self);
           plt.ylim := Some (y_min, y_max);
           plt.title := plt.title (ax self);
           plt.aspect := plt.aspect (ax self);
           plt.axis := plt.axis (ax self) |}).

(** The scatter created on [self.ax] is the object returned: the axes
    holds it with the data set on it afterwards. *)
Definition _set_scatter_data (self : instance)
  (current_scatter : plt.PathCollection) : instance * plt.PathCollection :=
  let scatter :=
    {| plt.offsets := plt.offsets current_scatter;
       plt.sizes := plt.sizes current_scatter;
       plt.array := plt.array current_scatter;
       plt.cmap := "jet" |} in
  (set_ax self
     {| plt.collections := plt.collections (ax self) ++ [scatter];
        plt.xlim := plt.xlim (ax self);
        plt.ylim := plt.ylim (ax self);
        plt.title := plt.title (ax self);
        plt.aspect := plt.aspect (ax self);
        plt.axis := plt.axis (ax self) |},
   scatter).

(** [self.fig.tight_layout()] changes nothing of what the model keeps. *)
Definition _update (self : instance) (frame : Z)
  : result (instance * plt.PathCollection) :=
  let self := set_ax self plt.cleared in
  fig ← builtins.getitem_int (frames self) frame;
  axes0 ← getitem (plt.axes fig) 0;
  current_scatter ← getitem (plt.collections axes0) 0;
  self ← _set_axis_limits self frame;
  let '(self, scatter) := _set_scatter_data self current_scatter in
  let self := set_ax self
    {| plt.collections := plt.collections (ax self);
       plt.xlim := plt.xlim (ax self);
       plt.ylim := plt.ylim (ax self);
       plt.title := Some ("frame " +:+ pretty frame)%string;
       plt.aspect := Some ("equal", "box")%string;
       plt.axis := Some "off"%string |} in
  Ok (self, scatter).

Section Plot.

(** The particle set handed to [save_frame] and its method
    [plot_particles(fig, sz, dsf, data=particles.damage)], which draws on
    the figure; the figure after the call is the result. *)
Context {P : Type}.
Variable plot_particles : P -> plt.Figure -> R -> R -> plt.Figure.

(** The list receives a deep copy of the figure: a value of its own, which
    later drawing cannot reach. *)
Definition save_frame (self : instance) (particles : P) : instance :=
  let fig := plt.figure (12, 6) in
  let fig := plot_particles particles fig (sz self) (dsf self) in
  {| frequency := frequency self; name := name self; sz := sz self;
     dsf := dsf self; frames := frames self ++ [fig]; ax := ax self |}.

End Plot.

End Animation.

(** ** More concrete inputs *)

Module Scenario.

(** Three nodes announced, two positions given. *)
Definition overcounted : ParticleSet.t :=
  {| ParticleSet.n_nodes := 3;
     ParticleSet.x := [[10; -10]; [3; 4]];
     ParticleSet.u := [[0; 0]; [0; 0]];
     ParticleSet.v := [[0; 0]; [0; 0]];
     ParticleSet.cell_volume := [1e-6; 1e-6];
     ParticleSet.horizon := 0.003;
     ParticleSet.material := Fixture.steel |}.

(** A position in space among positions in the plane. *)
Definition mixed : ParticleSet.t :=
  {| ParticleSet.n_nodes := 2;
     ParticleSet.x := [[3; 4]; [1; 2; 3]];
     ParticleSet.u := [[0; 0]; [0; 0]];
     ParticleSet.v := [[0; 0]; [0; 0]];
     ParticleSet.cell_volume := [1e-6; 1e-6];
     ParticleSet.horizon := 0.003;
     ParticleSet.material := Fixture.steel |}.

(** A plotting routine for the examples: one axes holding one scatter of
    the given points, coloured by [dsf]. *)
Definition scatter_plot (points : list (R * R)) (fig : plt.Figure)
  (sz dsf : R) : plt.Figure :=
  {| plt.figsize := plt.figsize fig;
     plt.axes :=
       [ {| plt.collections :=
              [ {| plt.offsets := points;
                   plt.sizes := map (fun _ => sz) points;
                   plt.array := map (fun _ => dsf) points;
                   plt.cmap := "jet" |} ];
            plt.xlim := None; plt.ylim := None; plt.title := None;
            plt.aspect := None; plt.axis := None |} ] |}.

Definition triangle : list (R * R) := [(0, 0); (4, 1); (2, 3)].

Definition film : Animation.instance :=
  Animation.save_frame scatter_plot
    (Animation.__init__ "20240101-120000" Animation.default_frequency None
       Animation.default_sz Animation.default_dsf)
    triangle.

End Scenario.

(** ** Properties of the penetrator *)

Section PenetratorFacts.

Variable smooth_step_data : Z -> Z -> Z -> R -> R -> R.
Variable calculate_contact_force :
  list nat -> R -> list R -> list (list R) -> list (list R) ->
  list (list R) -> R -> list R -> R -> list (list R).

(** The class namespace binds the name to the [def] executed last. *)
Lemma getattr_update_penetrator_position :
  Penetrator.getattr "update_penetrator_position"
  = Some Penetrator.def_update_penetrator_position_61.
Proof. vm_compute. reflexivity. Qed.

Lemma getattr_calculate_penetrator_force :
  Penetrator.getattr "calculate_penetrator_force"
  = Some Penetrator.def_calculate_penetrator_force.
Proof. vm_compute. reflexivity. Qed.

Lemma getattr__build_family :
  Penetrator.getattr "_build_family" = Some Penetrator.def__build_family.
Proof. vm_compute. reflexivity. Qed.

Lemma getattr___init__ :
  Penetrator.getattr "__init__" = Some Penetrator.def___init__.
Proof. vm_compute. reflexivity. Qed.

(** No argument list reaches the body of the [def] at line 61 through an
    instance: the instance itself is one argument too many. *)
Lemma method_call_leaf_update_raises self args :
  Penetrator.method_call_leaf smooth_step_data self
    "update_penetrator_position" args = Raise TypeError.
Proof.
  unfold Penetrator.method_call_leaf.
  rewrite getattr_update_penetrator_position.
  reflexivity.
Qed.

Lemma method_call_update_raises self args :
  Penetrator.method_call smooth_step_data calculate_contact_force self
    "update_penetrator_position" args = Raise TypeError.
Proof.
  unfold Penetrator.method_call.
  rewrite getattr_update_penetrator_position.
  reflexivity.
Qed.

(** Between vectors of one dimension the computed distance is the absolute
    value of the sum of the coordinate differences. *)
Lemma distance_same_dimension (xi centre : list R) :
  length xi = length centre ->
  Penetrator.distance xi centre
  = Ok (Rabs (np.sum (zip_with Rminus xi centre))).
Proof.
  intros Hlen. unfold Penetrator.distance, np.sub.
  destruct (decide (length xi = length centre)) as [_|Hne]; [|contradiction].
  cbn -[pow]. f_equal. unfold np.sqrt.
  rewrite <- Rsqr_pow2. apply sqrt_Rsqr_abs.
Qed.

(** The constructor, once the two method lookups are resolved. *)
Lemma new_unfold ID centre radius particles :
  Penetrator.new smooth_step_data calculate_contact_force ID centre radius
    particles
  = (family ← Penetrator._build_family
       {| Penetrator.ID := ID; Penetrator.centre := centre;
          Penetrator.radius := radius;
          Penetrator.search_radius := radius * 1.25;
          Penetrator.family := [] |} particles;
     Ok {| Penetrator.ID := ID; Penetrator.centre := centre;
           Penetrator.radius := radius;
           Penetrator.search_radius := radius * 1.25;
           Penetrator.family := family |}).
Proof.
  unfold Penetrator.new, Penetrator.method_call.
  rewrite getattr___init__.
  unfold Penetrator.function_call, Penetrator.method_call_leaf.
  rewrite getattr__build_family.
  unfold Penetrator.function_call_leaf. simpl.
  destruct (Penetrator._build_family _ _); reflexivity.
Qed.

(** On a line the computed distance is the Euclidean one. *)
Lemma distance_on_a_line (x c : R) :
  Penetrator.distance [x] [c] = Ok (Penetrator.euclidean_distance [x] [c]).
Proof.
  rewrite distance_same_dimension by reflexivity.
  unfold Penetrator.euclidean_distance. cbn [zip_with np.sum foldr].
  f_equal. rewrite !Rplus_0_r, <- Rsqr_pow2. symmetry. apply sqrt_Rsqr_abs.
Qed.

(** The scenario of the specification, read on a line: particles at
    [0], [r], [1.25 r] and [1.25 r + eps] from the centre give the family
    of the first three. *)
Lemma family_on_a_line (r eps : R) (particles : ParticleSet.t) ID :
  0 < r -> 0 < eps ->
  ParticleSet.n_nodes particles = 4%nat ->
  ParticleSet.x particles = [[0]; [r]; [1.25 * r]; [1.25 * r + eps]] ->
  Penetrator.new smooth_step_data calculate_contact_force ID [0] r particles
  = Ok {| Penetrator.ID := ID; Penetrator.centre := [0];
          Penetrator.radius := r; Penetrator.search_radius := r * 1.25;
          Penetrator.family := [0; 1; 2]%nat |}.
Proof.
  intros Hr Heps Hn Hx. rewrite new_unfold.
  unfold Penetrator._build_family. rewrite Hn.
  cbn [seq Penetrator.build_family_loop]. rewrite Hx.
  cbn [getitem lookup list_lookup mbind result_bind
       Penetrator.centre Penetrator.search_radius].
  rewrite !distance_same_dimension by reflexivity.
  cbn [zip_with np.sum foldr mbind result_bind app].
  rewrite !Rplus_0_r.
  rewrite (Rabs_pos_eq (0 - 0)), (Rabs_pos_eq (r - 0)),
    (Rabs_pos_eq (1.25 * r - 0)), (Rabs_pos_eq (1.25 * r + eps - 0)) by lra.
  destruct (Rle_dec (0 - 0) (r * 1.25)) as [_|H]; [|exfalso; lra].
  destruct (Rle_dec (r - 0) (r * 1.25)) as [_|H]; [|exfalso; lra].
  destruct (Rle_dec (1.25 * r - 0) (r * 1.25)) as [_|H]; [|exfalso; lra].
  destruct (Rle_dec (1.25 * r + eps - 0) (r * 1.25)) as [H|_];
    [exfalso; lra|].
  reflexivity.
Qed.

(** C1, at a failing input.  With particles at [(10, -10)] and [(3, 4)], a
    penetrator centred at the origin and radius [4.4] (search radius
    [5.5]): the constructed family is [[0]], although particle 0 is at
    Euclidean distance [sqrt 200 > 5.5] and particle 1 at Euclidean
    distance [5 <= 5.5]. *)
Theorem C1_family_is_not_the_euclidean_ball :
  exists self,
    Penetrator.new smooth_step_data calculate_contact_force
      1 Fixture.origin 4.4 Fixture.body = Ok self
    /\ Penetrator.search_radius self = 5.5
    /\ Penetrator.family self = [0%nat]
    /\ ~ Penetrator.euclidean_distance [10; -10] Fixture.origin
          <= Penetrator.search_radius self
    /\ Penetrator.euclidean_distance [3; 4] Fixture.origin
       <= Penetrator.search_radius self.
Proof.
  rewrite new_unfold.
  unfold Penetrator._build_family. cbn -[Penetrator.distance Rle_dec].
  rewrite !distance_same_dimension by reflexivity.
  cbn -[Rle_dec Rabs].
  replace (10 - 0 + (-10 - 0 + 0)) with 0 by lra.
  replace (3 - 0 + (4 - 0 + 0)) with 7 by lra.
  rewrite Rabs_R0, (Rabs_pos_eq 7) by lra.
  destruct (Rle_dec 0 (4.4 * 1.25)) as [_|H]; [|exfalso; apply H; lra].
  destruct (Rle_dec 7 (4.4 * 1.25)) as [H|_]; [exfalso; lra|].
  cbn. eexists. split; [reflexivity|]. cbn.
  unfold Penetrator.euclidean_distance. cbn.
  split; [lra|]. split; [reflexivity|]. split.
  - replace ((10 - 0) * ((10 - 0) * 1) + ((-10 - 0) * ((-10 - 0) * 1) + 0))
      with 200 by lra.
    intros H.
    pose proof (sqrt_pos 200) as Hs.
    pose proof (sqrt_sqrt 200 ltac:(lra)) as Hq.
    nra.
  - replace ((3 - 0) * ((3 - 0) * 1) + ((4 - 0) * ((4 - 0) * 1) + 0))
      with (5 ^ 2) by lra.
    rewrite sqrt_pow2 by lra. lra.
Qed.

(** C3.  The parameter-less [def] at line 61 replaces the one at line 35 in
    the class namespace; every call [self.update_penetrator_position(i, n)]
    raises [TypeError], and so does every call of
    [calculate_penetrator_force], whose first statement is that call. *)
Theorem C3_later_def_makes_position_update_raise :
  Penetrator.getattr "update_penetrator_position"
  = Some Penetrator.def_update_penetrator_position_61
  /\ (forall self i_time_step n_time_steps,
        Penetrator.update_penetrator_position
          smooth_step_data calculate_contact_force
          self i_time_step n_time_steps = Raise TypeError)
  /\ (forall self particles simulation i_time_step,
        Penetrator.calculate_penetrator_force
          smooth_step_data calculate_contact_force
          self particles simulation i_time_step = Raise TypeError).
Proof.
  split; [exact getattr_update_penetrator_position|]. split.
  - intros. apply method_call_update_raises.
  - intros. unfold Penetrator.calculate_penetrator_force,
      Penetrator.method_call.
    rewrite getattr_calculate_penetrator_force.
    unfold Penetrator.function_call.
    rewrite method_call_leaf_update_raises. reflexivity.
Qed.

(** C2, at a failing input.  For the penetrator centred at the origin, the
    call at step [0] of [1000] does not return the centre, and the call at
    step [1000] does not return the displaced centre: both raise
    [TypeError]. *)
Theorem C2_position_update_returns_no_position :
  Penetrator.update_penetrator_position
    smooth_step_data calculate_contact_force Fixture.ball
    (Penetrator.VInt 0) (Penetrator.VInt 1000) = Raise TypeError
  /\ Penetrator.update_penetrator_position
       smooth_step_data calculate_contact_force Fixture.ball
       (Penetrator.VInt 1000) (Penetrator.VInt 1000) = Raise TypeError
  /\ Penetrator.update_penetrator_position
       smooth_step_data calculate_contact_force Fixture.ball
       (Penetrator.VInt 0) (Penetrator.VInt 1000)
     <> Ok (Penetrator.VArray (Penetrator.centre Fixture.ball)).
Proof.
  unfold Penetrator.update_penetrator_position.
  rewrite !method_call_update_raises.
  repeat split; discriminate.
Qed.

(** What the body at line 35 computes, were it the one bound to the name:
    under the contract of [smooth_step_data] it starts at the centre, ends
    at the centre displaced by [1e-4], and no coordinate decreases. *)
Lemma update_penetrator_position_35_trajectory self n_time_steps :
  Contract.smooth_step smooth_step_data ->
  (0 < n_time_steps)%Z ->
  Penetrator.update_penetrator_position_35 smooth_step_data self 0
    n_time_steps = Penetrator.centre self
  /\ Penetrator.update_penetrator_position_35 smooth_step_data self
       n_time_steps n_time_steps
     = np.add_scalar (Penetrator.centre self) 1e-4
  /\ (forall i j, (i <= j)%Z ->
        Forall2 Rle
          (Penetrator.update_penetrator_position_35 smooth_step_data self i
             n_time_steps)
          (Penetrator.update_penetrator_position_35 smooth_step_data self j
             n_time_steps)).
Proof.
  intros Hc Hn.
  destruct (Hc 0%Z n_time_steps 0 1e-4 Hn) as (H0 & H1 & Hmono).
  unfold Penetrator.update_penetrator_position_35, np.add_scalar.
  rewrite H0, H1. split; [|split].
  - induction (Penetrator.centre self) as [|a l IH]; cbn [map];
      [reflexivity|].
    rewrite IH. f_equal. lra.
  - reflexivity.
  - intros i j Hij. specialize (Hmono ltac:(lra) i j Hij).
    induction (Penetrator.centre self) as [|a l IH]; cbn [map].
    + constructor.
    + constructor; [lra|exact IH].
Qed.

End PenetratorFacts.

(** ** Properties of the constitutive laws *)

Lemma truediv_nonzero x y : y <> 0 -> Py.truediv x y = Ok (x / y).
Proof.
  intros Hy. unfold Py.truediv.
  destruct (Req_dec_T y 0); [contradiction|reflexivity].
Qed.

Lemma truediv_zero x y : y = 0 -> Py.truediv x y = Raise ZeroDivisionError.
Proof.
  intros Hy. unfold Py.truediv.
  destruct (Req_dec_T y 0); [reflexivity|contradiction].
Qed.

Lemma or_else_None k : or_else None k = k.
Proof. reflexivity. Qed.

Lemma or_else_nonzero r k : r <> 0 -> or_else (Some r) k = Ok r.
Proof.
  intros Hr. unfold or_else.
  destruct (Req_dec_T r 0); [contradiction|reflexivity].
Qed.

Lemma or_else_zero k : or_else (Some 0) k = k.
Proof.
  unfold or_else. destruct (Req_dec_T 0 0) as [_|H]; [reflexivity|].
  exfalso. apply H. reflexivity.
Qed.

Lemma bind_Ok {A B} (a : A) (k : A -> result B) : (Ok a ≫= k) = k a.
Proof. reflexivity. Qed.

Lemma bind_Raise {A B} e (k : A -> result B) : (Raise e ≫= k) = Raise e.
Proof. reflexivity. Qed.

Lemma bind_inv {A B} (m : result A) (k : A -> result B) b :
  (m ≫= k) = Ok b -> exists a, m = Ok a /\ k a = Ok b.
Proof.
  destruct m as [a|e]; cbn; [|discriminate].
  intros H. exists a. split; [reflexivity|exact H].
Qed.

(** Evaluation steps of the result monad that need no side condition. *)
Ltac run_result :=
  repeat (rewrite ?or_else_None, ?bind_Ok; cbn beta).

Lemma stiffness_divisor_nonzero t h : t <> 0 -> h <> 0 -> np.pi * t * h ^ 3 <> 0.
Proof.
  intros Ht Hh. unfold np.pi.
  apply Rmult_integral_contrapositive_currified;
    [apply Rmult_integral_contrapositive_currified|].
  - apply PI_neq0.
  - exact Ht.
  - apply pow_nonzero. exact Hh.
Qed.

Section ConstitutiveFacts.

Variable linear : list R -> list R -> R -> list R.
Variable trilinear : list R -> list R -> R -> R -> R -> R -> list R.
Variable nonlinear : list R -> list R -> R -> R -> R -> R -> list R.

(** Construction of the linear law without explicit [c] and [sc]. *)
Lemma Linear_init_derived material particles t damage_on :
  t <> 0 ->
  ParticleSet.horizon particles <> 0 ->
  Material.E material <> 0 ->
  Linear.__init__ linear material particles t None None damage_on
  = let sc := np.sqrt (4 * np.pi * Material.Gf material
                       / (9 * Material.E material
                          * ParticleSet.horizon particles)) in
    Ok {| Linear.t := t;
          Linear.c := 9 * Material.E material
                      / (np.pi * t * ParticleSet.horizon particles ^ 3);
          Linear.sc := sc;
          Linear.damage_on := damage_on;
          Linear.calculate_bond_damage :=
            Linear._calculate_bond_damage linear sc damage_on |}.
Proof.
  intros Ht Hh HE.
  unfold Linear.__init__, ConstitutiveLaw._calculate_bond_stiffness,
    Linear._calculate_sc.
  rewrite !or_else_None.
  rewrite (truediv_nonzero _ (np.pi * t * ParticleSet.horizon particles ^ 3))
    by (apply stiffness_divisor_nonzero; assumption).
  rewrite bind_Ok, truediv_nonzero.
  - reflexivity.
  - repeat apply Rmult_integral_contrapositive_currified; auto; lra.
Qed.

(** C5.  Without explicit [c] and [sc], and with positive modulus and
    horizon, non-zero thickness and non-negative fracture energy, the
    linear law is constructed with [c = 9 E / (pi t horizon^3)] and
    [sc = sqrt (4 pi Gf / (9 E horizon))]. *)
Theorem C5_linear_derived_stiffness_and_critical_stretch
  material particles t damage_on :
  0 < Material.E material ->
  0 < ParticleSet.horizon particles ->
  t <> 0 ->
  0 <= Material.Gf material ->
  exists law,
    Linear.__init__ linear material particles t None None damage_on = Ok law
    /\ Linear.c law
       = 9 * Material.E material / (PI * t * ParticleSet.horizon particles ^ 3)
    /\ Linear.sc law
       = sqrt (4 * PI * Material.Gf material
               / (9 * Material.E material * ParticleSet.horizon particles)).
Proof.
  intros HE Hh Ht _.
  rewrite Linear_init_derived by (assumption || lra).
  eexists. split; [reflexivity|]. split; reflexivity.
Qed.

(** C7, as the code has it.  An explicit non-zero [c] (likewise [sc]) is
    stored in place of the derived value, and [sc] is the value the damage
    closure uses; when both are given no derivation is evaluated at all.
    An explicit [0] is falsy and is treated as if it had not been given. *)
Theorem C7_nonzero_explicit_value_overrides
  material particles t damage_on :
  (forall c sc law, c <> 0 ->
     Linear.__init__ linear material particles t (Some c) sc damage_on
     = Ok law -> Linear.c law = c)
  /\ (forall c sc law, sc <> 0 ->
        Linear.__init__ linear material particles t c (Some sc) damage_on
        = Ok law ->
        Linear.sc law = sc
        /\ Linear.calculate_bond_damage law
           = Linear._calculate_bond_damage linear sc damage_on)
  /\ (forall c sc, c <> 0 -> sc <> 0 ->
        Linear.__init__ linear material particles t (Some c) (Some sc)
          damage_on
        = Ok {| Linear.t := t; Linear.c := c; Linear.sc := sc;
                Linear.damage_on := damage_on;
                Linear.calculate_bond_damage :=
                  Linear._calculate_bond_damage linear sc damage_on |})
  /\ Linear.__init__ linear material particles t (Some 0) (Some 0) damage_on
     = Linear.__init__ linear material particles t None None damage_on.
Proof.
  split; [|split; [|split]].
  - intros c sc law Hc. unfold Linear.__init__.
    rewrite or_else_nonzero, bind_Ok by assumption.
    intros H. apply bind_inv in H as (sc' & _ & H).
    injection H as <-. reflexivity.
  - intros c sc law Hsc. unfold Linear.__init__.
    intros H. apply bind_inv in H as (c' & _ & H).
    rewrite or_else_nonzero, bind_Ok in H by assumption.
    injection H as <-. split; reflexivity.
  - intros c sc Hc Hsc. unfold Linear.__init__.
    rewrite !or_else_nonzero by assumption. reflexivity.
  - unfold Linear.__init__. rewrite !or_else_zero, !or_else_None.
    reflexivity.
Qed.

(** C8.  A linear law constructed with [damage_on = False] maps every
    [stretch] and [d] to the array of zeros of the shape of [d]. *)
Theorem C8_damage_off_returns_zeros
  material particles t c sc law :
  Linear.__init__ linear material particles t c sc false = Ok law ->
  forall stretch d,
    Linear.calculate_bond_damage law stretch d = replicate (length d) 0.
Proof.
  unfold Linear.__init__. intros H.
  apply bind_inv in H as (c' & _ & H).
  apply bind_inv in H as (sc' & _ & H).
  injection H as <-. intros stretch d. cbn.
  unfold np.zeros_like.
  induction d as [|a d IH]; cbn; [reflexivity|]. rewrite IH. reflexivity.
Qed.

(** Construction of the trilinear law without explicit [c], [s0], [sc],
    for a kink position strictly between 0 and 1. *)
Lemma Trilinear_init_derived material particles t beta :
  0 < Material.E material ->
  0 < Material.Gf material ->
  0 < Material.ft material ->
  0 < ParticleSet.horizon particles ->
  0 < t ->
  0 < beta < 1 ->
  exists law,
    Trilinear.__init__ trilinear material particles t None None None beta
    = Ok law
    /\ Trilinear.beta law = beta
    /\ Trilinear.gamma law = (3 + 2 * beta) / (2 * beta * (1 - beta))
    /\ Trilinear.c law
       = 9 * Material.E material / (PI * t * ParticleSet.horizon particles ^ 3)
    /\ Trilinear.s0 law = Material.ft material / Material.E material
    /\ Trilinear.sc law
       = 4 * Trilinear.gamma law * Material.Gf material
         / (t * ParticleSet.horizon particles ^ 4 * Trilinear.c law
            * Trilinear.s0 law
            * (1 + Trilinear.gamma law * Trilinear.beta law))
         + Trilinear.s0 law
    /\ Trilinear.s1 law
       = Trilinear.s0 law
         + (Trilinear.sc law - Trilinear.s0 law) / Trilinear.gamma law
    /\ 0 < Trilinear.s0 law < Trilinear.s1 law
    /\ Trilinear.s1 law < Trilinear.sc law.
Proof.
  intros HE HGf Hft Hh Ht [Hb0 Hb1].
  set (gamma := (3 + 2 * beta) / (2 * beta * (1 - beta))).
  set (c := 9 * Material.E material
            / (np.pi * t * ParticleSet.horizon particles ^ 3)).
  set (s0 := Material.ft material / Material.E material).
  set (den := t * ParticleSet.horizon particles ^ 4 * c * s0
              * (1 + gamma * beta)).
  set (q := 4 * gamma * Material.Gf material / den).
  assert (Hkink : 0 < 2 * beta * (1 - beta)) by nra.
  assert (Hgamma : 1 < gamma).
  { assert (Hm : gamma * (2 * beta * (1 - beta)) = 3 + 2 * beta)
      by (unfold gamma; field; lra).
    assert (Hk : 2 * beta * (1 - beta) < 3 + 2 * beta) by nra.
    nra. }
  assert (Hpi : 0 < np.pi * t * ParticleSet.horizon particles ^ 3).
  { apply Rmult_lt_0_compat; [apply Rmult_lt_0_compat|].
    - apply PI_RGT_0.
    - exact Ht.
    - apply pow_lt; exact Hh. }
  assert (Hc : 0 < c) by (apply Rdiv_lt_0_compat; lra).
  assert (Hs0 : 0 < s0) by (apply Rdiv_lt_0_compat; assumption).
  assert (Hden : 0 < den).
  { assert (Hh4 : 0 < ParticleSet.horizon particles ^ 4)
      by (apply pow_lt; exact Hh).
    assert (Hgb : 0 < 1 + gamma * beta) by nra.
    unfold den.
    apply Rmult_lt_0_compat; [|exact Hgb].
    apply Rmult_lt_0_compat; [|exact Hs0].
    apply Rmult_lt_0_compat; [|exact Hc].
    apply Rmult_lt_0_compat; assumption. }
  assert (Hq : 0 < q) by (apply Rdiv_lt_0_compat; nra).
  assert (Hr : 0 < q / gamma < q).
  { assert (Hr : 0 < q / gamma) by (apply Rdiv_lt_0_compat; lra).
    assert (Hm : q / gamma * gamma = q) by (field; lra).
    nra. }
  exists {| Trilinear.t := t; Trilinear.beta := beta;
            Trilinear.gamma := gamma; Trilinear.c := c; Trilinear.s0 := s0;
            Trilinear.sc := q + s0;
            Trilinear.s1 := s0 + (q + s0 - s0) / gamma;
            Trilinear.calculate_bond_damage :=
              Trilinear._calculate_bond_damage trilinear s0
                (s0 + (q + s0 - s0) / gamma) (q + s0) beta |}.
  split.
  - unfold Trilinear.__init__, Trilinear._calculate_gamma,
      ConstitutiveLaw._calculate_bond_stiffness, Trilinear._calculate_s0,
      Trilinear._calculate_sc, Trilinear._calculate_s1.
    rewrite (truediv_nonzero _ (2 * beta * (1 - beta))) by lra.
    run_result. fold gamma.
    rewrite (truediv_nonzero _ (np.pi * t * _)) by lra.
    run_result. fold c.
    rewrite (truediv_nonzero _ (Material.E material)) by lra.
    run_result. fold s0. fold den.
    rewrite (truediv_nonzero _ den) by lra.
    run_result. fold q.
    rewrite (truediv_nonzero _ gamma) by lra.
    reflexivity.
  - cbn [Trilinear.beta Trilinear.gamma Trilinear.c Trilinear.s0
         Trilinear.sc Trilinear.s1].
    replace (q + s0 - s0) with q by lra.
    repeat split; try reflexivity; lra.
Qed.

(** C6.  With positive [E], [Gf], [ft], horizon and thickness and the
    default kink position [beta = 0.25], the trilinear law is constructed
    with [gamma = (3 + 2 beta) / (2 beta (1 - beta))],
    [s1 = s0 + (sc - s0) / gamma] and [0 < s0 < s1 < sc]. *)
Theorem C6_trilinear_stretches_are_ordered material particles t :
  0 < Material.E material ->
  0 < Material.Gf material ->
  0 < Material.ft material ->
  0 < ParticleSet.horizon particles ->
  0 < t ->
  exists law,
    Trilinear.__init__ trilinear material particles t None None None
      Trilinear.default_beta = Ok law
    /\ Trilinear.gamma law
       = (3 + 2 * Trilinear.default_beta)
         / (2 * Trilinear.default_beta * (1 - Trilinear.default_beta))
    /\ Trilinear.s1 law
       = Trilinear.s0 law
         + (Trilinear.sc law - Trilinear.s0 law) / Trilinear.gamma law
    /\ 0 < Trilinear.s0 law
    /\ Trilinear.s0 law < Trilinear.s1 law
    /\ Trilinear.s1 law < Trilinear.sc law.
Proof.
  intros HE HGf Hft Hh Ht.
  destruct (Trilinear_init_derived material particles t
              Trilinear.default_beta HE HGf Hft Hh Ht)
    as (law & Hinit & _ & Hgamma & _ & _ & _ & Hs1 & [H0 H1] & H2).
  { unfold Trilinear.default_beta. lra. }
  exists law. repeat split; assumption.
Qed.

(** Construction of the non-linear law without explicit [c], [s0], [sc]. *)
Lemma NonLinear_init_derived material particles t alpha k :
  t <> 0 ->
  ParticleSet.horizon particles <> 0 ->
  Material.E material <> 0 ->
  NonLinear.__init__ nonlinear material particles t None None None alpha k
  = let c := 9 * Material.E material
             / (np.pi * t * ParticleSet.horizon particles ^ 3) in
    let s0 := Material.ft material / Material.E material in
    let sc := NonLinear._calculate_sc t alpha k c s0 material particles in
    Ok {| NonLinear.t := t; NonLinear.alpha := alpha; NonLinear.k := k;
          NonLinear.c := c; NonLinear.s0 := s0; NonLinear.sc := sc;
          NonLinear.calculate_bond_damage :=
            NonLinear._calculate_bond_damage nonlinear s0 sc alpha k |}.
Proof.
  intros Ht Hh HE.
  unfold NonLinear.__init__, ConstitutiveLaw._calculate_bond_stiffness,
    NonLinear._calculate_s0.
  rewrite (truediv_nonzero _ (np.pi * t * ParticleSet.horizon particles ^ 3))
    by (apply stiffness_divisor_nonzero; assumption).
  run_result.
  rewrite (truediv_nonzero _ (Material.E material)) by exact HE.
  run_result. reflexivity.
Qed.

Lemma truediv_cases x y :
  Py.truediv x y = Raise ZeroDivisionError \/ Py.truediv x y = Ok (x / y).
Proof.
  unfold Py.truediv. destruct (Req_dec_T y 0); [left|right]; reflexivity.
Qed.

(** The derived stiffness cannot be computed on a zero horizon. *)
Lemma stiffness_raises_on_zero_horizon t material particles :
  ParticleSet.horizon particles = 0 ->
  ConstitutiveLaw._calculate_bond_stiffness t material particles
  = Raise ZeroDivisionError.
Proof.
  intros Hh. unfold ConstitutiveLaw._calculate_bond_stiffness.
  apply truediv_zero. rewrite Hh. lra.
Qed.

(** C9, as the code has it.  No constructor inspects its parameters; what
    stops a construction is the arithmetic.  Without explicit [c], [s0]
    and [sc], a zero horizon or a zero modulus makes each of the three
    constructors raise [ZeroDivisionError], and no instance is built. *)
Theorem C9_zero_horizon_or_modulus_raises_ZeroDivisionError
  material particles t :
  ParticleSet.horizon particles = 0 \/ Material.E material = 0 ->
  (forall damage_on,
     Linear.__init__ linear material particles t None None damage_on
     = Raise ZeroDivisionError)
  /\ (forall beta,
        Trilinear.__init__ trilinear material particles t None None None beta
        = Raise ZeroDivisionError)
  /\ (forall alpha k,
        NonLinear.__init__ nonlinear material particles t None None None
          alpha k
        = Raise ZeroDivisionError).
Proof.
  intros Hzero.
  assert (Hc : ConstitutiveLaw._calculate_bond_stiffness t material particles
               = Raise ZeroDivisionError
               \/ Material.E material = 0
                  /\ exists c,
                      ConstitutiveLaw._calculate_bond_stiffness t material
                        particles = Ok c).
  { destruct Hzero as [Hh|HE].
    - left. apply stiffness_raises_on_zero_horizon. exact Hh.
    - unfold ConstitutiveLaw._calculate_bond_stiffness.
      destruct (truediv_cases (9 * Material.E material)
                  (np.pi * t * ParticleSet.horizon particles ^ 3))
        as [H|H]; rewrite H; [left; reflexivity|right].
      split; [exact HE|]. eexists. reflexivity. }
  split; [|split].
  - intros damage_on. unfold Linear.__init__. rewrite or_else_None.
    destruct Hc as [Hc|(HE & c & Hc)]; rewrite Hc; [reflexivity|].
    run_result. unfold Linear._calculate_sc.
    rewrite truediv_zero by (rewrite HE; lra). reflexivity.
  - intros beta. unfold Trilinear.__init__.
    destruct (truediv_cases (3 + 2 * beta) (2 * beta * (1 - beta)))
      as [Hg|Hg]; unfold Trilinear._calculate_gamma; rewrite Hg;
      [reflexivity|].
    run_result.
    destruct Hc as [Hc|(HE & c & Hc)]; rewrite Hc; [reflexivity|].
    run_result. unfold Trilinear._calculate_s0.
    rewrite truediv_zero by exact HE. reflexivity.
  - intros alpha k. unfold NonLinear.__init__. rewrite or_else_None.
    destruct Hc as [Hc|(HE & c & Hc)]; rewrite Hc; [reflexivity|].
    run_result. unfold NonLinear._calculate_s0.
    rewrite truediv_zero by exact HE. reflexivity.
Qed.

(** The closure stored by each constructor is the kernel applied to the
    stored parameters. *)
Lemma Linear_closure material particles t c sc damage_on law :
  Linear.__init__ linear material particles t c sc damage_on = Ok law ->
  Linear.calculate_bond_damage law
  = Linear._calculate_bond_damage linear (Linear.sc law) damage_on.
Proof.
  unfold Linear.__init__. intros H.
  apply bind_inv in H as (c' & _ & H).
  apply bind_inv in H as (sc' & _ & H).
  injection H as <-. reflexivity.
Qed.

Lemma Trilinear_closure material particles t c s0 sc beta law :
  Trilinear.__init__ trilinear material particles t c s0 sc beta = Ok law ->
  Trilinear.calculate_bond_damage law
  = Trilinear._calculate_bond_damage trilinear (Trilinear.s0 law)
      (Trilinear.s1 law) (Trilinear.sc law) beta.
Proof.
  unfold Trilinear.__init__. intros H.
  apply bind_inv in H as (gamma' & _ & H).
  apply bind_inv in H as (c' & _ & H).
  apply bind_inv in H as (s0' & _ & H).
  apply bind_inv in H as (sc' & _ & H).
  apply bind_inv in H as (s1' & _ & H).
  injection H as <-. reflexivity.
Qed.

Lemma NonLinear_closure material particles t c s0 sc alpha k law :
  NonLinear.__init__ nonlinear material particles t c s0 sc alpha k
  = Ok law ->
  NonLinear.calculate_bond_damage law
  = NonLinear._calculate_bond_damage nonlinear (NonLinear.s0 law)
      (NonLinear.sc law) alpha k.
Proof.
  unfold NonLinear.__init__. intros H.
  apply bind_inv in H as (c' & _ & H).
  apply bind_inv in H as (s0' & _ & H).
  apply bind_inv in H as (sc' & _ & H).
  injection H as <-. reflexivity.
Qed.

(** C4.  When the three kernels meet their contract (same shape, values
    in [[0,1]], not below [d]), so does [calculate_bond_damage] of every
    linear law constructed with damage on, of every trilinear law and of
    every non-linear law: for [d_prev] in [[0,1]] the result is in [[0,1]]
    and elementwise at least [d_prev]. *)
Theorem C4_damage_stays_in_unit_interval_and_ratchets :
  (forall sc, Contract.bond_damage (fun stretch d => linear stretch d sc)) ->
  (forall s0 s1 sc beta,
     Contract.bond_damage
       (fun stretch d => trilinear stretch d s0 s1 sc beta)) ->
  (forall s0 sc alpha k,
     Contract.bond_damage
       (fun stretch d => nonlinear stretch d s0 sc alpha k)) ->
  (forall material particles t c sc law,
     Linear.__init__ linear material particles t c sc true = Ok law ->
     Contract.bond_damage (Linear.calculate_bond_damage law))
  /\ (forall material particles t c s0 sc beta law,
        Trilinear.__init__ trilinear material particles t c s0 sc beta
        = Ok law ->
        Contract.bond_damage (Trilinear.calculate_bond_damage law))
  /\ (forall material particles t c s0 sc alpha k law,
        NonLinear.__init__ nonlinear material particles t c s0 sc alpha k
        = Ok law ->
        Contract.bond_damage (NonLinear.calculate_bond_damage law)).
Proof.
  intros Hlinear Htrilinear Hnonlinear. split; [|split].
  - intros material particles t c sc law H.
    rewrite (Linear_closure _ _ _ _ _ _ _ H). apply Hlinear.
  - intros material particles t c s0 sc beta law H.
    rewrite (Trilinear_closure _ _ _ _ _ _ _ _ H). apply Htrilinear.
  - intros material particles t c s0 sc alpha k law H.
    rewrite (NonLinear_closure _ _ _ _ _ _ _ _ _ H). apply Hnonlinear.
Qed.

End ConstitutiveFacts.

(** *** The base class and the [Bilinear] placeholder *)

Lemma Bilinear_getattr_calculate_bond_damage :
  mro_lookup Bilinear.mro "calculate_bond_damage"
  = Some ConstitutiveLaw.def_calculate_bond_damage.
Proof. vm_compute. reflexivity. Qed.

Lemma Bilinear_getattr___init__ :
  mro_lookup Bilinear.mro "__init__" = Some ConstitutiveLaw.def___init__.
Proof. vm_compute. reflexivity. Qed.

Lemma ConstitutiveLaw_getattr_calculate_bond_damage :
  mro_lookup ConstitutiveLaw.mro "calculate_bond_damage"
  = Some ConstitutiveLaw.def_calculate_bond_damage.
Proof. vm_compute. reflexivity. Qed.

(** C10, at a failing input.  [calculate_bond_damage] is declared without
    parameters.  Called as the contract says, with [stretch] and [d], on
    the class [Bilinear], on the base class or on an instance of either, it
    raises [TypeError] and not the [NotImplementedError] of its body; that
    one is raised by the call without arguments on the class.  [Bilinear()]
    itself raises [TypeError], [__init__] having no parameter either. *)
Theorem C10_damage_call_with_arguments_raises_TypeError :
  (forall stretch d,
     ConstitutiveLaw.class_call Bilinear.mro "calculate_bond_damage"
       [ConstitutiveLaw.VArray stretch; ConstitutiveLaw.VArray d]
     = Raise TypeError)
  /\ (forall stretch d,
        ConstitutiveLaw.class_call ConstitutiveLaw.mro
          "calculate_bond_damage"
          [ConstitutiveLaw.VArray stretch; ConstitutiveLaw.VArray d]
        = Raise TypeError)
  /\ (forall self args,
        ConstitutiveLaw.method_call Bilinear.mro self "calculate_bond_damage"
          args = Raise TypeError)
  /\ (forall self args,
        ConstitutiveLaw.method_call ConstitutiveLaw.mro self
          "calculate_bond_damage" args = Raise TypeError)
  /\ ConstitutiveLaw.instantiate Bilinear.mro [] = Raise TypeError
  /\ ConstitutiveLaw.class_call Bilinear.mro "calculate_bond_damage" []
     = Raise NotImplementedError.
Proof.
  unfold ConstitutiveLaw.class_call, ConstitutiveLaw.method_call,
    ConstitutiveLaw.instantiate.
  rewrite Bilinear_getattr_calculate_bond_damage,
    ConstitutiveLaw_getattr_calculate_bond_damage, Bilinear_getattr___init__.
  repeat split; intros; reflexivity.
Qed.

(** ** The contracts are met by the modelled collaborators *)

Lemma clamp_unit_interval a : Contract.unit_interval (Contract.clamp a).
Proof.
  unfold Contract.unit_interval, Contract.clamp, Rmax, Rmin.
  repeat destruct (Rle_dec _ _); lra.
Qed.

Lemma clamp_monotone a b : a <= b -> Contract.clamp a <= Contract.clamp b.
Proof.
  unfold Contract.clamp, Rmax, Rmin.
  repeat destruct (Rle_dec _ _); lra.
Qed.

Lemma ratchet_meets_contract curve :
  Contract.bond_damage (Contract.ratchet curve).
Proof.
  intros stretch. unfold Contract.ratchet.
  induction stretch as [|s stretch IH]; intros [|a d] Hlen Hd;
    try discriminate.
  - cbn. repeat split; constructor.
  - injection Hlen as Hlen. inversion Hd as [|? ? Ha Hd']; subst.
    destruct (IH d Hlen Hd') as (IHlen & IHunit & IHle).
    pose proof (clamp_unit_interval (curve s)) as Hc.
    unfold Contract.unit_interval in *.
    cbn [zip_with length]. split; [|split].
    + rewrite IHlen. reflexivity.
    + constructor; [|exact IHunit].
      unfold Rmax. destruct (Rle_dec _ _); lra.
    + constructor; [|exact IHle].
      unfold Rmax. destruct (Rle_dec _ _); lra.
Qed.

Lemma linear_meets_contract sc :
  Contract.bond_damage (fun stretch d => Contract.linear stretch d sc).
Proof. apply ratchet_meets_contract. Qed.

Lemma trilinear_meets_contract s0 s1 sc beta :
  Contract.bond_damage
    (fun stretch d => Contract.trilinear stretch d s0 s1 sc beta).
Proof. apply ratchet_meets_contract. Qed.

Lemma nonlinear_meets_contract s0 sc alpha k :
  Contract.bond_damage
    (fun stretch d => Contract.nonlinear stretch d s0 sc alpha k).
Proof. apply ratchet_meets_contract. Qed.

(** The cubic ease does not decrease on [[0,1]]. *)
Lemma hermite_monotone a b :
  0 <= a -> a <= b -> b <= 1 ->
  3 * a ^ 2 - 2 * a ^ 3 <= 3 * b ^ 2 - 2 * b ^ 3.
Proof.
  intros Ha Hab Hb.
  assert (H : 3 * b ^ 2 - 2 * b ^ 3 - (3 * a ^ 2 - 2 * a ^ 3)
              = (b - a) * (3 * (a + b) - 2 * (a ^ 2 + a * b + b ^ 2)))
    by ring.
  assert (Hq : 0 <= 3 * (a + b) - 2 * (a ^ 2 + a * b + b ^ 2)) by nra.
  nra.
Qed.

Lemma smooth_step_data_meets_contract :
  Contract.smooth_step Contract.smooth_step_data.
Proof.
  intros x_start x_end y_start y_end Hx.
  assert (Hw : 0 < IZR x_end - IZR x_start)
    by (apply Rlt_0_minus, IZR_lt; exact Hx).
  unfold Contract.smooth_step_data. split; [|split].
  - replace ((IZR x_start - IZR x_start) / (IZR x_end - IZR x_start))
      with 0 by (field; lra).
    replace (Contract.clamp 0) with 0; [lra|].
    unfold Contract.clamp, Rmax, Rmin.
    repeat destruct (Rle_dec _ _); lra.
  - replace ((IZR x_end - IZR x_start) / (IZR x_end - IZR x_start))
      with 1 by (field; lra).
    replace (Contract.clamp 1) with 1; [lra|].
    unfold Contract.clamp, Rmax, Rmin.
    repeat destruct (Rle_dec _ _); lra.
  - intros Hy i j Hij.
    set (ti := Contract.clamp
                 ((IZR i - IZR x_start) / (IZR x_end - IZR x_start))).
    set (tj := Contract.clamp
                 ((IZR j - IZR x_start) / (IZR x_end - IZR x_start))).
    assert (Ht : ti <= tj).
    { apply clamp_monotone. unfold Rdiv.
      apply Rmult_le_compat_r.
      - left. apply Rinv_0_lt_compat. exact Hw.
      - apply IZR_le in Hij. lra. }
    pose proof (clamp_unit_interval
                  ((IZR i - IZR x_start) / (IZR x_end - IZR x_start)))
      as [Hi0 _].
    pose proof (clamp_unit_interval
                  ((IZR j - IZR x_start) / (IZR x_end - IZR x_start)))
      as [_ Hj1].
    fold ti in Hi0. fold tj in Hj1.
    pose proof (hermite_monotone ti tj Hi0 Ht Hj1) as Hh.
    nra.
Qed.

(** ** The theorems at concrete inputs *)

Lemma steel_is_valid :
  0 < Material.E Fixture.steel
  /\ 0 < Material.Gf Fixture.steel
  /\ 0 < Material.ft Fixture.steel
  /\ 0 < ParticleSet.horizon Fixture.body
  /\ 0 < Fixture.thickness.
Proof.
  unfold Fixture.steel, Fixture.body, Fixture.thickness.
  cbn [Material.E Material.Gf Material.ft ParticleSet.horizon].
  repeat split; lra.
Defined.

(** The linear law of the end-to-end scenario has the derived stiffness
    and critical stretch. *)
Lemma C5_steel_witness :
  (0 < Material.E Fixture.steel
   /\ 0 < ParticleSet.horizon Fixture.body
   /\ Fixture.thickness <> 0
   /\ 0 <= Material.Gf Fixture.steel)
  /\ exists law,
       Linear.__init__ Contract.linear Fixture.steel Fixture.body
         Fixture.thickness None None true = Ok law
       /\ Linear.c law = 9 * 2e11 / (PI * 0.001 * 0.003 ^ 3)
       /\ Linear.sc law = sqrt (4 * PI * 40 / (9 * 2e11 * 0.003)).
Proof.
  destruct steel_is_valid as (HE & HGf & _ & Hh & Ht).
  assert (Ht' : Fixture.thickness <> 0) by lra.
  assert (HGf' : 0 <= Material.Gf Fixture.steel) by lra.
  split; [repeat split; assumption|].
  exact (C5_linear_derived_stiffness_and_critical_stretch Contract.linear
           Fixture.steel Fixture.body Fixture.thickness true
           HE Hh Ht' HGf').
Defined.

(** The trilinear law of the same scenario has ordered stretches. *)
Lemma C6_steel_witness :
  (0 < Material.E Fixture.steel
   /\ 0 < Material.Gf Fixture.steel
   /\ 0 < Material.ft Fixture.steel
   /\ 0 < ParticleSet.horizon Fixture.body
   /\ 0 < Fixture.thickness)
  /\ exists law,
       Trilinear.__init__ Contract.trilinear Fixture.steel Fixture.body
         Fixture.thickness None None None Trilinear.default_beta = Ok law
       /\ Trilinear.gamma law
          = (3 + 2 * Trilinear.default_beta)
            / (2 * Trilinear.default_beta * (1 - Trilinear.default_beta))
       /\ Trilinear.s1 law
          = Trilinear.s0 law
            + (Trilinear.sc law - Trilinear.s0 law) / Trilinear.gamma law
       /\ 0 < Trilinear.s0 law
       /\ Trilinear.s0 law < Trilinear.s1 law
       /\ Trilinear.s1 law < Trilinear.sc law.
Proof.
  split; [exact steel_is_valid|].
  destruct steel_is_valid as (HE & HGf & Hft & Hh & Ht).
  exact (C6_trilinear_stretches_are_ordered Contract.trilinear
           Fixture.steel Fixture.body Fixture.thickness HE HGf Hft Hh Ht).
Defined.

(** An explicit [c = 0] is not stored: the law holds the derived stiffness,
    which is not zero. *)
Lemma C7_explicit_zero_is_replaced :
  exists law,
    Linear.__init__ Contract.linear Fixture.steel Fixture.body
      Fixture.thickness (Some 0) None true = Ok law
    /\ Linear.c law <> 0.
Proof.
  destruct steel_is_valid as (HE & _ & _ & Hh & Ht).
  unfold Linear.__init__. rewrite or_else_zero.
  change (exists law,
            Linear.__init__ Contract.linear Fixture.steel Fixture.body
              Fixture.thickness None None true = Ok law
            /\ Linear.c law <> 0).
  rewrite Linear_init_derived by lra.
  eexists. split; [reflexivity|]. cbn [Linear.c].
  assert (Hd : 0 < np.pi * Fixture.thickness
                   * ParticleSet.horizon Fixture.body ^ 3).
  { apply Rmult_lt_0_compat; [apply Rmult_lt_0_compat|].
    - apply PI_RGT_0.
    - exact Ht.
    - apply pow_lt; exact Hh. }
  assert (Hc : 0 < 9 * Material.E Fixture.steel
                   / (np.pi * Fixture.thickness
                      * ParticleSet.horizon Fixture.body ^ 3))
    by (apply Rdiv_lt_0_compat; lra).
  lra.
Qed.

(** Explicit non-zero values are stored, also on a particle set whose
    horizon admits no derivation. *)
Lemma C7_explicit_values_witness :
  (5 <> 0 /\ 0.02 <> 0)
  /\ Linear.__init__ Contract.linear Fixture.steel Fixture.collapsed
       Fixture.thickness (Some 5) (Some 0.02) true
     = Ok {| Linear.t := Fixture.thickness; Linear.c := 5;
             Linear.sc := 0.02; Linear.damage_on := true;
             Linear.calculate_bond_damage :=
               Linear._calculate_bond_damage Contract.linear 0.02 true |}.
Proof.
  assert (H5 : 5 <> 0) by lra.
  assert (H2 : 0.02 <> 0) by lra.
  split; [split; assumption|].
  destruct (C7_nonzero_explicit_value_overrides Contract.linear
              Fixture.steel Fixture.collapsed Fixture.thickness true)
    as (_ & _ & Hboth & _).
  exact (Hboth 5 0.02 H5 H2).
Defined.

(** With damage off, the law of the scenario answers zeros. *)
Lemma C8_damage_off_witness :
  exists law,
    Linear.__init__ Contract.linear Fixture.steel Fixture.body
      Fixture.thickness None None false = Ok law
    /\ Linear.calculate_bond_damage law [0.01; 0.02; 0.5] [0; 0.3; 0.9]
       = [0; 0; 0].
Proof.
  destruct steel_is_valid as (HE & _ & _ & Hh & Ht).
  pose proof (Linear_init_derived Contract.linear Fixture.steel Fixture.body
                Fixture.thickness false ltac:(lra) ltac:(lra) ltac:(lra))
    as Hinit.
  cbv zeta in Hinit. eexists. split; [exact Hinit|].
  exact (C8_damage_off_returns_zeros Contract.linear Fixture.steel
           Fixture.body Fixture.thickness None None _ Hinit
           [0.01; 0.02; 0.5] [0; 0.3; 0.9]).
Defined.

(** A fracture energy of zero is accepted: the linear law is constructed,
    with a critical stretch of zero. *)
Lemma C9_zero_fracture_energy_is_accepted :
  Material.Gf Fixture.no_fracture_energy <= 0
  /\ ~ raises (Linear.__init__ Contract.linear Fixture.no_fracture_energy
                 Fixture.body Fixture.thickness None None true)
  /\ exists law,
       Linear.__init__ Contract.linear Fixture.no_fracture_energy
         Fixture.body Fixture.thickness None None true = Ok law
       /\ Linear.sc law = 0.
Proof.
  destruct steel_is_valid as (HE & _ & _ & Hh & Ht).
  assert (HE' : Material.E Fixture.no_fracture_energy <> 0).
  { change (Material.E Fixture.steel <> 0). lra. }
  rewrite Linear_init_derived by (assumption || lra).
  cbv zeta. split; [|split].
  - cbn [Material.Gf Fixture.no_fracture_energy]. lra.
  - intros [e H]. discriminate H.
  - eexists. split; [reflexivity|]. cbn [Linear.sc].
    unfold np.sqrt.
    replace (4 * np.pi * Material.Gf Fixture.no_fracture_energy
             / (9 * Material.E Fixture.no_fracture_energy
                * ParticleSet.horizon Fixture.body))
      with 0.
    + apply sqrt_0.
    + cbn [Material.Gf Fixture.no_fracture_energy]. unfold Rdiv.
      rewrite Rmult_0_r, Rmult_0_l. reflexivity.
Qed.

(** On a horizon of zero the three constructors raise. *)
Lemma C9_zero_horizon_witness :
  (ParticleSet.horizon Fixture.collapsed = 0
   \/ Material.E Fixture.steel = 0)
  /\ Linear.__init__ Contract.linear Fixture.steel Fixture.collapsed
       Fixture.thickness None None true = Raise ZeroDivisionError
  /\ Trilinear.__init__ Contract.trilinear Fixture.steel Fixture.collapsed
       Fixture.thickness None None None Trilinear.default_beta
     = Raise ZeroDivisionError
  /\ NonLinear.__init__ Contract.nonlinear Fixture.steel Fixture.collapsed
       Fixture.thickness None None None NonLinear.default_alpha
       NonLinear.default_k
     = Raise ZeroDivisionError.
Proof.
  assert (H : ParticleSet.horizon Fixture.collapsed = 0
              \/ Material.E Fixture.steel = 0) by (left; reflexivity).
  split; [exact H|].
  destruct (C9_zero_horizon_or_modulus_raises_ZeroDivisionError
              Contract.linear Contract.trilinear Contract.nonlinear
              Fixture.steel Fixture.collapsed Fixture.thickness H)
    as (Hl & Ht & Hn).
  split; [apply Hl|]. split; [apply Ht|apply Hn].
Defined.

(** The three laws of the scenario, with the modelled kernels, keep damage
    in the unit interval and never lower it. *)
Lemma C4_modelled_kernels_witness :
  ((forall sc,
      Contract.bond_damage (fun stretch d => Contract.linear stretch d sc))
   /\ (forall s0 s1 sc beta,
         Contract.bond_damage
           (fun stretch d => Contract.trilinear stretch d s0 s1 sc beta))
   /\ (forall s0 sc alpha k,
         Contract.bond_damage
           (fun stretch d => Contract.nonlinear stretch d s0 sc alpha k)))
  /\ (exists law,
        Linear.__init__ Contract.linear Fixture.steel Fixture.body
          Fixture.thickness None None true = Ok law
        /\ Contract.bond_damage (Linear.calculate_bond_damage law))
  /\ (exists law,
        Trilinear.__init__ Contract.trilinear Fixture.steel Fixture.body
          Fixture.thickness None None None Trilinear.default_beta = Ok law
        /\ Contract.bond_damage (Trilinear.calculate_bond_damage law))
  /\ (exists law,
        NonLinear.__init__ Contract.nonlinear Fixture.steel Fixture.body
          Fixture.thickness None None None NonLinear.default_alpha
          NonLinear.default_k = Ok law
        /\ Contract.bond_damage (NonLinear.calculate_bond_damage law)).
Proof.
  destruct (C4_damage_stays_in_unit_interval_and_ratchets
              Contract.linear Contract.trilinear Contract.nonlinear
              linear_meets_contract trilinear_meets_contract
              nonlinear_meets_contract)
    as (Hl & Ht & Hn).
  destruct steel_is_valid as (HE & HGf & Hft & Hh & Hth).
  split; [|split; [|split]].
  - split; [exact linear_meets_contract|].
    split; [exact trilinear_meets_contract|exact nonlinear_meets_contract].
  - pose proof (Linear_init_derived Contract.linear Fixture.steel
                  Fixture.body Fixture.thickness true
                  ltac:(lra) ltac:(lra) ltac:(lra)) as Hinit.
    cbv zeta in Hinit. eexists. split; [exact Hinit|].
    exact (Hl _ _ _ _ _ _ Hinit).
  - destruct (Trilinear_init_derived Contract.trilinear Fixture.steel
                Fixture.body Fixture.thickness Trilinear.default_beta
                HE HGf Hft Hh Hth) as (law & Hinit & _).
    { unfold Trilinear.default_beta. lra. }
    exists law. split; [exact Hinit|].
    exact (Ht _ _ _ _ _ _ _ _ Hinit).
  - pose proof (NonLinear_init_derived Contract.nonlinear Fixture.steel
                  Fixture.body Fixture.thickness NonLinear.default_alpha
                  NonLinear.default_k ltac:(lra) ltac:(lra) ltac:(lra))
      as Hinit.
    cbv zeta in Hinit. eexists. split; [exact Hinit|].
    exact (Hn _ _ _ _ _ _ _ _ _ Hinit).
Defined.

(** The body at line 35, with the modelled ease, on the ball of the
    fixture over 1000 steps. *)
Lemma line_35_trajectory_of_the_ball :
  Penetrator.update_penetrator_position_35 Contract.smooth_step_data
    Fixture.ball 0 1000 = [0; 0]
  /\ Penetrator.update_penetrator_position_35 Contract.smooth_step_data
       Fixture.ball 1000 1000 = [0 + 1e-4; 0 + 1e-4].
Proof.
  destruct (update_penetrator_position_35_trajectory
              Contract.smooth_step_data Fixture.ball 1000
              smooth_step_data_meets_contract ltac:(lia))
    as (H0 & H1 & _).
  split; [exact H0|exact H1].
Qed.

(** ** More on the family of the penetrator *)

Lemma np_sub_same_length (a b : list R) :
  length a = length b -> np.sub a b = Ok (zip_with Rminus a b).
Proof.
  intros H. unfold np.sub.
  destruct (decide (length a = length b)); [reflexivity|contradiction].
Qed.

Lemma np_sub_incompatible (a b : list R) :
  length a <> length b -> length a <> 1%nat -> length b <> 1%nat ->
  np.sub a b = Raise ValueError.
Proof.
  intros Hab Ha Hb. unfold np.sub.
  destruct (decide (length a = length b)); [contradiction|].
  destruct a as [|x [|x' a]], b as [|y [|y' b]]; cbn in *;
    congruence.
Qed.

Lemma np_sub_raises_only_ValueError (a b : list R) e :
  np.sub a b = Raise e -> e = ValueError.
Proof.
  unfold np.sub. destruct (decide _); [discriminate|].
  destruct a as [|x [|x' a]], b as [|y [|y' b]]; intros H;
    try discriminate H; injection H as <-; reflexivity.
Qed.

Lemma sum_zip_with_minus (a b : list R) :
  length a = length b ->
  np.sum (zip_with Rminus a b) = np.sum a - np.sum b.
Proof.
  revert b. induction a as [|x a IH]; intros [|y b] H; try discriminate H.
  - cbn. lra.
  - injection H as H. cbn [zip_with np.sum foldr].
    fold (np.sum (zip_with Rminus a b)). fold (np.sum a). fold (np.sum b).
    rewrite (IH b H). lra.
Qed.

Section FamilyLoop.

Variable self : Penetrator.instance.
Variable particles : ParticleSet.t.

(** What a completed loop has done: every index was visited with a position
    and a distance, and the indices appended are those within reach, in the
    order of the visit. *)
Lemma build_family_loop_Ok indices acc r :
  Penetrator.build_family_loop self particles indices acc = Ok r ->
  exists fam,
    r = acc ++ fam
    /\ fam `sublist_of` indices
    /\ forall i, i ∈ indices ->
         exists xi d,
           ParticleSet.x particles !! i = Some xi
           /\ Penetrator.distance xi (Penetrator.centre self) = Ok d
           /\ (i ∈ fam <-> d <= Penetrator.search_radius self).
Proof.
  revert acc r. induction indices as [|a indices IH]; intros acc r.
  - cbn. intros [= <-]. exists []. rewrite app_nil_r.
    split; [reflexivity|]. split; [constructor|].
    intros i Hi. inversion Hi.
  - cbn [Penetrator.build_family_loop]. unfold getitem.
    destruct (ParticleSet.x particles !! a) as [xa|] eqn:Hxa;
      [|discriminate].
    rewrite bind_Ok.
    destruct (Penetrator.distance xa (Penetrator.centre self)) as [da|e]
      eqn:Hda; [|discriminate].
    rewrite bind_Ok. intros H.
    apply IH in H as (fam & -> & Hsub & Hall).
    assert (Hsame : forall xi d,
              ParticleSet.x particles !! a = Some xi ->
              Penetrator.distance xi (Penetrator.centre self) = Ok d ->
              d = da).
    { intros xi d Hxi Hd. rewrite Hxa in Hxi. injection Hxi as <-.
      rewrite Hda in Hd. injection Hd as <-. reflexivity. }
    destruct (Rle_dec da (Penetrator.search_radius self)) as [Hle|Hnle].
    + exists (a :: fam). rewrite <- app_assoc.
      split; [reflexivity|]. split; [constructor; exact Hsub|].
      intros i Hi. destruct (decide (i = a)) as [->|Hne].
      * exists xa, da. split; [assumption|]. split; [assumption|].
        split; [intros _; exact Hle|intros _; left].
      * apply elem_of_cons in Hi as [Hi|Hi]; [contradiction|].
        destruct (Hall i Hi) as (xi & d & Hxi & Hd & Hiff).
        exists xi, d. split; [assumption|]. split; [assumption|]. split.
        -- intros Hin. apply elem_of_cons in Hin as [Hin|Hin];
             [contradiction|]. apply Hiff. exact Hin.
        -- intros Hd'. right. apply Hiff. exact Hd'.
    + exists fam. split; [reflexivity|].
      split; [apply sublist_cons; exact Hsub|].
      intros i Hi. destruct (decide (i = a)) as [->|Hne].
      * exists xa, da. split; [assumption|]. split; [assumption|].
        split; [|intros; contradiction].
        intros Hin. pose proof (sublist_subseteq _ _ Hsub a Hin) as Hin'.
        destruct (Hall a Hin') as (xi & d & Hxi & Hd & Hiff).
        rewrite <- (Hsame xi d Hxi Hd). apply Hiff. exact Hin.
      * apply elem_of_cons in Hi as [Hi|Hi]; [contradiction|].
        exact (Hall i Hi).
Qed.

End FamilyLoop.

Lemma build_family_loop_Raise self particles indices acc e :
  Penetrator.build_family_loop self particles indices acc = Raise e ->
  exists i, i ∈ indices
    /\ (ParticleSet.x particles !! i = None /\ e = IndexError
        \/ exists xi, ParticleSet.x particles !! i = Some xi
             /\ Penetrator.distance xi (Penetrator.centre self) = Raise e).
Proof.
  revert acc. induction indices as [|a indices IH]; intros acc.
  - cbn. discriminate.
  - cbn [Penetrator.build_family_loop]. unfold getitem.
    destruct (ParticleSet.x particles !! a) as [xa|] eqn:Hxa.
    + rewrite bind_Ok.
      destruct (Penetrator.distance xa (Penetrator.centre self)) as [da|e']
        eqn:Hda.
      * rewrite bind_Ok. intros H. apply IH in H as (i & Hi & H).
        exists i. split; [right; exact Hi|exact H].
      * cbn. intros [= <-]. exists a. split; [left|].
        right. exists xa. split; assumption.
    + cbn. intros [= <-]. exists a. split; [left|]. left.
      split; [exact Hxa|reflexivity].
Qed.

Lemma build_family_loop_app self particles l1 l2 acc :
  Penetrator.build_family_loop self particles (l1 ++ l2) acc
  = (r ← Penetrator.build_family_loop self particles l1 acc;
     Penetrator.build_family_loop self particles l2 r).
Proof.
  revert acc. induction l1 as [|a l1 IH]; intros acc; [reflexivity|].
  cbn [app Penetrator.build_family_loop].
  destruct (getitem (ParticleSet.x particles) a) as [xa|e]; [|reflexivity].
  rewrite !bind_Ok.
  destruct (Penetrator.distance xa (Penetrator.centre self)) as [da|e];
    [|reflexivity].
  rewrite !bind_Ok. apply IH.
Qed.

Lemma distance_raises_only_ValueError xi centre e :
  Penetrator.distance xi centre = Raise e -> e = ValueError.
Proof.
  unfold Penetrator.distance.
  destruct (np.sub xi centre) as [diff|e'] eqn:H; [discriminate|].
  cbn. intros [= <-]. exact (np_sub_raises_only_ValueError _ _ _ H).
Qed.

Lemma distance_incompatible xi centre :
  length xi <> length centre -> length xi <> 1%nat ->
  length centre <> 1%nat ->
  Penetrator.distance xi centre = Raise ValueError.
Proof.
  intros H1 H2 H3. unfold Penetrator.distance.
  rewrite np_sub_incompatible by assumption. reflexivity.
Qed.

(** A loop over indices that all have a position of the dimension of the
    centre completes. *)
Lemma build_family_loop_completes self particles indices acc :
  (forall i, i ∈ indices ->
     exists xi, ParticleSet.x particles !! i = Some xi
                /\ length xi = length (Penetrator.centre self)) ->
  exists r, Penetrator.build_family_loop self particles indices acc = Ok r.
Proof.
  intros Hall.
  destruct (Penetrator.build_family_loop self particles indices acc)
    as [r|e] eqn:H; [exists r; reflexivity|].
  apply build_family_loop_Raise in H as (i & Hi & H).
  destruct (Hall i Hi) as (xi & Hxi & Hlen).
  destruct H as [[Hnone _]|(xi' & Hxi' & Hd)].
  - rewrite Hxi in Hnone. discriminate.
  - rewrite Hxi in Hxi'. injection Hxi' as <-.
    rewrite distance_same_dimension in Hd by exact Hlen. discriminate.
Qed.

Section PenetratorFamily.

Variable smooth_step_data : Z -> Z -> Z -> R -> R -> R.
Variable calculate_contact_force :
  list nat -> R -> list R -> list (list R) -> list (list R) ->
  list (list R) -> R -> list R -> R -> list (list R).

Lemma new_Ok_inv ID centre radius particles self :
  Penetrator.new smooth_step_data calculate_contact_force
      ID centre radius particles = Ok self ->
  Penetrator.ID self = ID
  /\ Penetrator.centre self = centre
  /\ Penetrator.radius self = radius
  /\ Penetrator.search_radius self = radius * 1.25
  /\ Penetrator._build_family
       {| Penetrator.ID := ID; Penetrator.centre := centre;
          Penetrator.radius := radius;
          Penetrator.search_radius := radius * 1.25;
          Penetrator.family := [] |} particles
     = Ok (Penetrator.family self).
Proof.
  rewrite new_unfold. intros H.
  apply bind_inv in H as (fam & Hfam & H). injection H as <-.
  cbn. repeat split; try reflexivity. exact Hfam.
Qed.

(** Membership in the family of a constructed penetrator. *)
Lemma family_elem_of ID centre radius particles self :
  Penetrator.new smooth_step_data calculate_contact_force
      ID centre radius particles = Ok self ->
  forall i,
    i ∈ Penetrator.family self
    <-> (i < ParticleSet.n_nodes particles)%nat
        /\ exists xi d,
             ParticleSet.x particles !! i = Some xi
             /\ Penetrator.distance xi centre = Ok d
             /\ d <= radius * 1.25.
Proof.
  intros H. apply new_Ok_inv in H as (_ & _ & _ & _ & H).
  unfold Penetrator._build_family in H.
  apply build_family_loop_Ok in H as (fam & Hfam & Hsub & Hall).
  cbn [app] in Hfam. rewrite Hfam. cbn in Hall.
  intros i. split.
  - intros Hi. pose proof (sublist_subseteq _ _ Hsub i Hi) as Hi'.
    destruct (Hall i Hi') as (xi & d & Hxi & Hd & Hiff).
    apply elem_of_seq in Hi'. split; [lia|].
    exists xi, d. split; [assumption|]. split; [assumption|].
    apply Hiff. exact Hi.
  - intros (Hlt & xi & d & Hxi & Hd & Hle).
    assert (Hi : i ∈ seq 0 (ParticleSet.n_nodes particles))
      by (apply elem_of_seq; lia).
    destruct (Hall i Hi) as (xi' & d' & Hxi' & Hd' & Hiff).
    rewrite Hxi in Hxi'. injection Hxi' as <-.
    rewrite Hd in Hd'. injection Hd' as <-.
    apply Hiff. exact Hle.
Qed.

(** Construction completes on a particle set that has a position of the
    dimension of the centre for each of its [n_nodes] particles. *)
Lemma new_completes ID centre radius particles :
  (ParticleSet.n_nodes particles <= length (ParticleSet.x particles))%nat ->
  Forall (fun xi => length xi = length centre) (ParticleSet.x particles) ->
  exists self, Penetrator.new smooth_step_data calculate_contact_force
      ID centre radius particles = Ok self.
Proof.
  intros Hn Hdim. rewrite new_unfold. unfold Penetrator._build_family.
  match goal with
  | |- exists _, (Penetrator.build_family_loop ?s ?p ?l ?a ≫= _) = _ =>
      destruct (build_family_loop_completes s p l a) as [r Hr]
  end.
  - intros i Hi. apply elem_of_seq in Hi.
    destruct (lookup_lt_is_Some_2 (ParticleSet.x particles) i) as [xi Hxi];
      [lia|].
    exists xi. split; [exact Hxi|]. cbn.
    rewrite Forall_forall in Hdim. apply Hdim.
    apply list_elem_of_lookup. exists i. exact Hxi.
  - rewrite Hr. eexists. reflexivity.
Qed.

(** X1.  The family of a constructed penetrator lists particle indices in
    ascending order without repetition: it is a sublist of
    [0, 1, ..., n_nodes - 1]. *)
Theorem X1_family_is_an_ascending_selection
  ID centre radius particles self :
  Penetrator.new smooth_step_data calculate_contact_force
      ID centre radius particles = Ok self ->
  Penetrator.family self `sublist_of` seq 0 (ParticleSet.n_nodes particles)
  /\ NoDup (Penetrator.family self)
  /\ Forall (fun i => (i < ParticleSet.n_nodes particles)%nat)
       (Penetrator.family self)
  /\ (length (Penetrator.family self) <= ParticleSet.n_nodes particles)%nat.
Proof.
  intros H. apply new_Ok_inv in H as (_ & _ & _ & _ & H).
  unfold Penetrator._build_family in H.
  apply build_family_loop_Ok in H as (fam & Hfam & Hsub & _).
  cbn [app] in Hfam. rewrite Hfam.
  split; [exact Hsub|]. split; [|split].
  - exact (sublist_NoDup _ _ (NoDup_seq _ _) Hsub).
  - apply Forall_forall. intros i Hi.
    apply (sublist_subseteq _ _ Hsub), elem_of_seq in Hi. lia.
  - apply sublist_length in Hsub. rewrite length_seq in Hsub. exact Hsub.
Qed.

(** X2.  When the particle set has a position of the dimension of the
    centre for each of its [n_nodes] particles, construction succeeds, and
    particle [i] is in the family exactly when the sum of its coordinates
    differs from the sum of the coordinates of the centre by at most
    [1.25 * radius]. *)
Theorem X2_family_is_a_band_on_the_coordinate_sum
  ID centre radius particles :
  (ParticleSet.n_nodes particles <= length (ParticleSet.x particles))%nat ->
  Forall (fun xi => length xi = length centre) (ParticleSet.x particles) ->
  exists self,
    Penetrator.new smooth_step_data calculate_contact_force
        ID centre radius particles = Ok self
    /\ forall i,
         i ∈ Penetrator.family self
         <-> exists xi,
               (i < ParticleSet.n_nodes particles)%nat
               /\ ParticleSet.x particles !! i = Some xi
               /\ Rabs (np.sum xi - np.sum centre) <= radius * 1.25.
Proof.
  intros Hn Hdim.
  assert (Hpos : forall i xi, ParticleSet.x particles !! i = Some xi ->
                   length xi = length centre).
  { intros i xi Hxi. rewrite Forall_forall in Hdim. apply Hdim.
    apply list_elem_of_lookup. exists i. exact Hxi. }
  destruct (Penetrator.new smooth_step_data calculate_contact_force
      ID centre radius particles) as [self|e] eqn:Hnew.
  - exists self. split; [reflexivity|]. intros i.
    rewrite (family_elem_of _ _ _ _ _ Hnew i). split.
    + intros (Hlt & xi & d & Hxi & Hd & Hle). exists xi.
      split; [exact Hlt|]. split; [exact Hxi|].
      rewrite distance_same_dimension in Hd by (eapply Hpos; exact Hxi).
      injection Hd as <-.
      rewrite sum_zip_with_minus in Hle by (eapply Hpos; exact Hxi).
      exact Hle.
    + intros (xi & Hlt & Hxi & Hle). split; [exact Hlt|].
      exists xi, (Rabs (np.sum xi - np.sum centre)).
      split; [exact Hxi|]. split; [|exact Hle].
      rewrite distance_same_dimension by (eapply Hpos; exact Hxi).
      rewrite sum_zip_with_minus by (eapply Hpos; exact Hxi). reflexivity.
  - exfalso. rewrite new_unfold in Hnew.
    unfold Penetrator._build_family in Hnew.
    match type of Hnew with
    | (Penetrator.build_family_loop ?s ?p ?l ?a ≫= _) = _ =>
        destruct (build_family_loop_completes s p l a) as [r Hr]
    end.
    + intros i Hi. apply elem_of_seq in Hi.
      destruct (lookup_lt_is_Some_2 (ParticleSet.x particles) i) as [xi Hxi];
        [lia|].
      exists xi. split; [exact Hxi|]. cbn. eapply Hpos. exact Hxi.
    + rewrite Hr in Hnew. discriminate.
Qed.

(** X3.  When [n_nodes] exceeds the number of positions (all of the
    dimension of the centre), construction raises [IndexError]. *)
Theorem X3_more_nodes_than_positions_raises_IndexError
  ID centre radius particles :
  Forall (fun xi => length xi = length centre) (ParticleSet.x particles) ->
  (length (ParticleSet.x particles) < ParticleSet.n_nodes particles)%nat ->
  Penetrator.new smooth_step_data calculate_contact_force
      ID centre radius particles = Raise IndexError.
Proof.
  intros Hdim Hn. rewrite new_unfold. unfold Penetrator._build_family.
  set (n := length (ParticleSet.x particles)) in *.
  replace (ParticleSet.n_nodes particles)
    with (n + S (ParticleSet.n_nodes particles - S n))%nat by lia.
  rewrite seq_app, build_family_loop_app.
  match goal with
  | |- ((Penetrator.build_family_loop ?s ?p ?l ?a ≫= _) ≫= _) = _ =>
      destruct (build_family_loop_completes s p l a) as [r Hr]
  end.
  - intros i Hi. apply elem_of_seq in Hi.
    destruct (lookup_lt_is_Some_2 (ParticleSet.x particles) i) as [xi Hxi];
      [fold n; lia|].
    exists xi. split; [exact Hxi|]. cbn.
    rewrite Forall_forall in Hdim. apply Hdim.
    apply list_elem_of_lookup. exists i. exact Hxi.
  - rewrite Hr, bind_Ok. cbn [seq Penetrator.build_family_loop].
    unfold getitem. rewrite (lookup_ge_None_2 _ (0 + n)) by (fold n; lia).
    reflexivity.
Qed.

(** X4.  When every particle up to [n_nodes] has a position, and one of
    them has a dimension that numpy cannot broadcast against the centre
    (different, and neither is 1), construction raises [ValueError]. *)
Theorem X4_incompatible_dimension_raises_ValueError
  ID centre radius particles i xi :
  (ParticleSet.n_nodes particles <= length (ParticleSet.x particles))%nat ->
  (i < ParticleSet.n_nodes particles)%nat ->
  ParticleSet.x particles !! i = Some xi ->
  length xi <> length centre ->
  length xi <> 1%nat ->
  length centre <> 1%nat ->
  Penetrator.new smooth_step_data calculate_contact_force
      ID centre radius particles = Raise ValueError.
Proof.
  intros Hn Hi Hxi H1 H2 H3.
  pose proof (distance_incompatible xi centre H1 H2 H3) as Hd.
  destruct (Penetrator.new smooth_step_data calculate_contact_force
      ID centre radius particles) as [self|e] eqn:Hnew.
  - exfalso. apply new_Ok_inv in Hnew as (_ & _ & _ & _ & H).
    unfold Penetrator._build_family in H.
    apply build_family_loop_Ok in H as (fam & _ & _ & Hall).
    destruct (Hall i) as (xi' & d & Hxi' & Hd' & _);
      [apply elem_of_seq; lia|].
    rewrite Hxi in Hxi'. injection Hxi' as <-. cbn in Hd'.
    rewrite Hd in Hd'. discriminate.
  - f_equal. rewrite new_unfold in Hnew.
    unfold Penetrator._build_family in Hnew.
    match type of Hnew with
    | (?m ≫= _) = _ => destruct m as [r|e'] eqn:Hloop
    end; [discriminate|].
    cbn in Hnew. injection Hnew as <-.
    apply build_family_loop_Raise in Hloop as (j & Hj & H).
    apply elem_of_seq in Hj.
    destruct H as [[Hnone _]|(xj & _ & Hdj)].
    + apply lookup_ge_None_1 in Hnone. lia.
    + exact (distance_raises_only_ValueError _ _ _ Hdj).
Qed.

(** X5.  A negative radius gives an empty family. *)
Theorem X5_negative_radius_gives_empty_family
  ID centre radius particles self :
  radius < 0 ->
  Penetrator.new smooth_step_data calculate_contact_force
      ID centre radius particles = Ok self ->
  Penetrator.family self = [].
Proof.
  intros Hr Hnew. apply elem_of_nil_inv. intros i Hi.
  apply (family_elem_of _ _ _ _ _ Hnew) in Hi
    as (_ & xi & d & _ & Hd & Hle).
  unfold Penetrator.distance in Hd.
  apply bind_inv in Hd as (diff & _ & Hd). injection Hd as <-.
  unfold np.sqrt in Hle.
  match type of Hle with
  | R_sqrt.sqrt ?a <= _ => pose proof (sqrt_pos a) as Hs
  end.
  lra.
Qed.

(** X6.  Enlarging the radius never removes a particle from the family. *)
Theorem X6_family_grows_with_the_radius
  ID ID' centre radius radius' particles self self' :
  radius <= radius' ->
  Penetrator.new smooth_step_data calculate_contact_force
      ID centre radius particles = Ok self ->
  Penetrator.new smooth_step_data calculate_contact_force
      ID' centre radius' particles = Ok self' ->
  forall i, i ∈ Penetrator.family self -> i ∈ Penetrator.family self'.
Proof.
  intros Hr Hnew Hnew' i Hi.
  apply (family_elem_of _ _ _ _ _ Hnew) in Hi
    as (Hlt & xi & d & Hxi & Hd & Hle).
  apply (family_elem_of _ _ _ _ _ Hnew'). split; [exact Hlt|].
  exists xi, d. split; [exact Hxi|]. split; [exact Hd|]. lra.
Qed.

(** X7.  Construction stores its arguments and the search radius
    [1.25 * radius]; when it fails, it is with [IndexError] or
    [ValueError] and nothing else. *)
Theorem X7_constructor_outcomes ID centre radius particles :
  match Penetrator.new smooth_step_data calculate_contact_force
      ID centre radius particles with
  | Ok self =>
      Penetrator.ID self = ID
      /\ Penetrator.centre self = centre
      /\ Penetrator.radius self = radius
      /\ Penetrator.search_radius self = radius * 1.25
  | Raise e => e = IndexError \/ e = ValueError
  end.
Proof.
  destruct (Penetrator.new smooth_step_data calculate_contact_force
      ID centre radius particles) as [self|e] eqn:Hnew.
  - apply new_Ok_inv in Hnew as (H1 & H2 & H3 & H4 & _).
    repeat split; assumption.
  - rewrite new_unfold in Hnew. unfold Penetrator._build_family in Hnew.
    match type of Hnew with
    | (?m ≫= _) = _ => destruct m as [r|e'] eqn:Hloop
    end; [discriminate|].
    cbn in Hnew. injection Hnew as <-.
    apply build_family_loop_Raise in Hloop as (j & _ & H).
    destruct H as [[_ ->]|(xj & _ & Hdj)]; [left; reflexivity|right].
    exact (distance_raises_only_ValueError _ _ _ Hdj).
Qed.

End PenetratorFamily.

(** ** More on the constitutive laws *)

Lemma truediv_Ok_inv x y q : Py.truediv x y = Ok q -> y <> 0 /\ q = x / y.
Proof.
  unfold Py.truediv. destruct (Req_dec_T y 0); [discriminate|].
  intros [= <-]. split; [assumption|reflexivity].
Qed.

Lemma truediv_Raise_inv x y e :
  Py.truediv x y = Raise e -> y = 0 /\ e = ZeroDivisionError.
Proof.
  unfold Py.truediv. destruct (Req_dec_T y 0); [|discriminate].
  intros [= <-]. split; [assumption|reflexivity].
Qed.

Lemma bind_Raise_inv {A B} (m : result A) (k : A -> result B) e :
  (m ≫= k) = Raise e -> m = Raise e \/ exists a, m = Ok a /\ k a = Raise e.
Proof.
  destruct m as [a|e']; cbn.
  - intros H. right. exists a. split; [reflexivity|exact H].
  - intros [= <-]. left. reflexivity.
Qed.

Lemma Ok_inj {A} (a b : A) : Ok a = Ok b -> a = b.
Proof. intros H. congruence. Qed.

Lemma Rdiv_nonzero a b : a <> 0 -> b <> 0 -> a / b <> 0.
Proof.
  intros Ha Hb. unfold Rdiv.
  apply Rmult_integral_contrapositive_currified;
    [exact Ha|apply Rinv_neq_0_compat; exact Hb].
Qed.

Lemma stiffness_divisor_zero t h : np.pi * t * h ^ 3 = 0 -> t = 0 \/ h = 0.
Proof.
  intros H. apply Rmult_integral in H as [H|H].
  - apply Rmult_integral in H as [H|H]; [|left; exact H].
    exfalso. exact (PI_neq0 H).
  - right. destruct (Req_dec_T h 0) as [Hh|Hh]; [exact Hh|].
    exfalso. exact (pow_nonzero h 3 Hh H).
Qed.

Section ConstitutiveMore.

Variable linear : list R -> list R -> R -> list R.
Variable trilinear : list R -> list R -> R -> R -> R -> R -> list R.
Variable nonlinear : list R -> list R -> R -> R -> R -> R -> list R.

(** X8.  Without explicit [c], [s0], [sc], the linear and the non-linear
    law are constructed exactly when thickness, horizon and modulus are all
    non-zero; otherwise both constructors raise [ZeroDivisionError].  The
    fracture energy, the tensile strength and the shape parameters play no
    part in that. *)
Theorem X8_linear_and_nonlinear_construct_iff_nonzero
  material particles t damage_on alpha k :
  (t <> 0 /\ ParticleSet.horizon particles <> 0
   /\ Material.E material <> 0 ->
   (exists law,
      Linear.__init__ linear material particles t None None damage_on
      = Ok law)
   /\ (exists law,
         NonLinear.__init__ nonlinear material particles t None None None
           alpha k = Ok law))
  /\ (~ (t <> 0 /\ ParticleSet.horizon particles <> 0
         /\ Material.E material <> 0) ->
      Linear.__init__ linear material particles t None None damage_on
      = Raise ZeroDivisionError
      /\ NonLinear.__init__ nonlinear material particles t None None None
           alpha k = Raise ZeroDivisionError).
Proof.
  split.
  - intros (Ht & Hh & HE). split.
    + rewrite Linear_init_derived by assumption. eexists. reflexivity.
    + rewrite NonLinear_init_derived by assumption. eexists. reflexivity.
  - intros Hnot.
    unfold Linear.__init__, NonLinear.__init__,
      ConstitutiveLaw._calculate_bond_stiffness.
    rewrite !or_else_None.
    destruct (Req_dec_T (np.pi * t * ParticleSet.horizon particles ^ 3) 0)
      as [Hz|Hnz].
    + rewrite (truediv_zero _ _ Hz). split; reflexivity.
    + rewrite (truediv_nonzero _ _ Hnz). run_result.
      assert (HE : Material.E material = 0).
      { destruct (Req_dec_T (Material.E material) 0) as [HE|HE];
          [exact HE|].
        exfalso. apply Hnot. repeat split; [| |exact HE].
        - intros ->. apply Hnz. lra.
        - intros Hh. apply Hnz. rewrite Hh. lra. }
      unfold Linear._calculate_sc, NonLinear._calculate_s0.
      rewrite (truediv_zero _ (9 * _ * _)) by (rewrite HE; lra).
      rewrite (truediv_zero _ (Material.E material)) by exact HE.
      split; reflexivity.
Qed.

(** With [beta] away from 0 and 1, [1 + gamma * beta = 5 / (2 (1 - beta))]. *)
Lemma one_plus_gamma_beta beta :
  beta <> 0 -> beta <> 1 ->
  1 + (3 + 2 * beta) / (2 * beta * (1 - beta)) * beta
  = 5 / (2 * (1 - beta)).
Proof. intros H0 H1. field. split; lra. Qed.

(** The trilinear constructor without explicit values, on inputs where no
    divisor vanishes. *)
Lemma Trilinear_init_nonzero material particles t beta :
  t <> 0 -> ParticleSet.horizon particles <> 0 ->
  Material.E material <> 0 -> Material.ft material <> 0 ->
  beta <> 0 -> beta <> 1 -> 3 + 2 * beta <> 0 ->
  Trilinear.__init__ trilinear material particles t None None None beta
  = let gamma := (3 + 2 * beta) / (2 * beta * (1 - beta)) in
    let c := 9 * Material.E material
             / (np.pi * t * ParticleSet.horizon particles ^ 3) in
    let s0 := Material.ft material / Material.E material in
    let sc := 4 * gamma * Material.Gf material
              / (t * ParticleSet.horizon particles ^ 4 * c * s0
                 * (1 + gamma * beta)) + s0 in
    let s1 := s0 + (sc - s0) / gamma in
    Ok {| Trilinear.t := t; Trilinear.beta := beta;
          Trilinear.gamma := gamma; Trilinear.c := c; Trilinear.s0 := s0;
          Trilinear.sc := sc; Trilinear.s1 := s1;
          Trilinear.calculate_bond_damage :=
            Trilinear._calculate_bond_damage trilinear s0 s1 sc beta |}.
Proof.
  intros Ht Hh HE Hft Hb0 Hb1 Hb.
  assert (Hkink : 2 * beta * (1 - beta) <> 0).
  { apply Rmult_integral_contrapositive_currified; [|lra].
    apply Rmult_integral_contrapositive_currified; lra. }
  pose proof (stiffness_divisor_nonzero t _ Ht Hh) as Hpi.
  cbv zeta.
  set (gamma := (3 + 2 * beta) / (2 * beta * (1 - beta))).
  set (c := 9 * Material.E material
            / (np.pi * t * ParticleSet.horizon particles ^ 3)).
  set (s0 := Material.ft material / Material.E material).
  set (den := t * ParticleSet.horizon particles ^ 4 * c * s0
              * (1 + gamma * beta)).
  assert (Hgamma : gamma <> 0) by (apply Rdiv_nonzero; assumption).
  assert (Hc : c <> 0) by (apply Rdiv_nonzero; [lra|assumption]).
  assert (Hs0 : s0 <> 0) by (apply Rdiv_nonzero; assumption).
  assert (Hgb : 1 + gamma * beta <> 0).
  { unfold gamma. rewrite one_plus_gamma_beta by assumption.
    apply Rdiv_nonzero; lra. }
  assert (Hden : den <> 0).
  { unfold den.
    apply Rmult_integral_contrapositive_currified; [|exact Hgb].
    apply Rmult_integral_contrapositive_currified; [|exact Hs0].
    apply Rmult_integral_contrapositive_currified; [|exact Hc].
    apply Rmult_integral_contrapositive_currified; [exact Ht|].
    apply pow_nonzero. exact Hh. }
  unfold Trilinear.__init__, Trilinear._calculate_gamma,
    ConstitutiveLaw._calculate_bond_stiffness, Trilinear._calculate_s0,
    Trilinear._calculate_sc, Trilinear._calculate_s1.
  rewrite (truediv_nonzero _ (2 * beta * (1 - beta))) by assumption.
  run_result. fold gamma.
  rewrite (truediv_nonzero _ (np.pi * t * _)) by assumption.
  run_result. fold c.
  rewrite (truediv_nonzero _ (Material.E material)) by assumption.
  run_result. fold s0. fold den.
  rewrite (truediv_nonzero _ den) by assumption.
  run_result.
  rewrite (truediv_nonzero _ gamma) by assumption.
  reflexivity.
Qed.

(** A trilinear law constructed without explicit values exists exactly on
    those inputs. *)
Lemma Trilinear_init_Ok_iff material particles t beta :
  (t <> 0 /\ ParticleSet.horizon particles <> 0
   /\ Material.E material <> 0 /\ Material.ft material <> 0
   /\ beta <> 0 /\ beta <> 1 /\ beta <> - (3 / 2))
  <-> exists law,
        Trilinear.__init__ trilinear material particles t None None None
          beta = Ok law.
Proof.
  split.
  - intros (Ht & Hh & HE & Hft & Hb0 & Hb1 & Hb).
    rewrite Trilinear_init_nonzero by (assumption || lra).
    eexists. reflexivity.
  - intros [law Hinit].
    unfold Trilinear.__init__ in Hinit.
    apply bind_inv in Hinit as (gamma & Hgamma & Hinit).
    apply bind_inv in Hinit as (c & Hc & Hinit).
    apply bind_inv in Hinit as (s0 & Hs0 & Hinit).
    apply bind_inv in Hinit as (sc & Hsc & Hinit).
    apply bind_inv in Hinit as (s1 & Hs1 & _).
    rewrite or_else_None in Hc, Hs0, Hsc.
    apply truediv_Ok_inv in Hgamma as [Hkink ->].
    apply truediv_Ok_inv in Hc as [Hpi ->].
    apply truediv_Ok_inv in Hs0 as [HE ->].
    unfold Trilinear._calculate_sc in Hsc.
    apply bind_inv in Hsc as (q & Hq & _).
    apply truediv_Ok_inv in Hq as [Hden _].
    unfold Trilinear._calculate_s1 in Hs1.
    apply bind_inv in Hs1 as (q' & Hq' & _).
    apply truediv_Ok_inv in Hq' as [Hg _].
    assert (Ht : t <> 0) by (intros ->; apply Hpi; lra).
    assert (Hh : ParticleSet.horizon particles <> 0)
      by (intros Hh; apply Hpi; rewrite Hh; lra).
    assert (Hb0 : beta <> 0) by (intros ->; apply Hkink; lra).
    assert (Hb1 : beta <> 1) by (intros ->; apply Hkink; lra).
    repeat split; try assumption.
    + intros Hft. apply Hden. rewrite Hft. unfold Rdiv. ring.
    + intros ->. apply Hg. unfold Rdiv.
      replace (3 + 2 * - (3 * / 2)) with 0 by lra. ring.
Qed.

(** X9.  Without explicit [c], [s0], [sc], the trilinear law is
    constructed exactly when thickness, horizon, modulus and tensile
    strength are non-zero and [beta] is none of [0], [1] and [-3/2];
    otherwise the constructor raises [ZeroDivisionError]. *)
Theorem X9_trilinear_constructs_iff_nonzero material particles t beta :
  let valid :=
    t <> 0 /\ ParticleSet.horizon particles <> 0
    /\ Material.E material <> 0 /\ Material.ft material <> 0
    /\ beta <> 0 /\ beta <> 1 /\ beta <> - (3 / 2) in
  (valid ->
   exists law,
     Trilinear.__init__ trilinear material particles t None None None beta
     = Ok law)
  /\ (~ valid ->
      Trilinear.__init__ trilinear material particles t None None None beta
      = Raise ZeroDivisionError).
Proof.
  cbv zeta. split.
  - intros (Ht & Hh & HE & Hft & Hb0 & Hb1 & Hb).
    rewrite Trilinear_init_nonzero by (assumption || lra).
    eexists. reflexivity.
  - intros Hnot.
    destruct (Trilinear.__init__ trilinear material particles t None None
                None beta) as [law|e] eqn:Hinit.
    + exfalso. apply Hnot. apply Trilinear_init_Ok_iff. exists law. exact Hinit.
    + f_equal. unfold Trilinear.__init__ in Hinit.
      rewrite !or_else_None in Hinit.
      unfold Trilinear._calculate_gamma,
        ConstitutiveLaw._calculate_bond_stiffness, Trilinear._calculate_s0,
        Trilinear._calculate_sc, Trilinear._calculate_s1 in Hinit.
      apply bind_Raise_inv in Hinit as [H|(gamma & _ & Hinit)];
        [exact (proj2 (truediv_Raise_inv _ _ _ H))|].
      apply bind_Raise_inv in Hinit as [H|(c & _ & Hinit)];
        [exact (proj2 (truediv_Raise_inv _ _ _ H))|].
      apply bind_Raise_inv in Hinit as [H|(s0 & _ & Hinit)];
        [exact (proj2 (truediv_Raise_inv _ _ _ H))|].
      apply bind_Raise_inv in Hinit as [H|(sc & _ & Hinit)].
      { apply bind_Raise_inv in H as [H|(q & _ & H)]; [|discriminate H].
        exact (proj2 (truediv_Raise_inv _ _ _ H)). }
      apply bind_Raise_inv in Hinit as [H|(s1 & _ & Hinit)];
        [|discriminate Hinit].
      apply bind_Raise_inv in H as [H|(q & _ & H)]; [|discriminate H].
      exact (proj2 (truediv_Raise_inv _ _ _ H)).
Qed.

(** X10.  In a trilinear law constructed without explicit values the
    thickness cancels out of the stretches: [s0 = ft / E],
    [sc = s0 + 4 pi (3 + 2 beta) Gf / (45 beta horizon ft)] and
    [s1 = s0 + 8 pi (1 - beta) Gf / (45 horizon ft)]; only the stiffness
    depends on it, with [c * t = 9 E / (pi horizon^3)]. *)
Theorem X10_trilinear_stretches_do_not_depend_on_thickness
  material particles t beta law :
  Trilinear.__init__ trilinear material particles t None None None beta
  = Ok law ->
  Trilinear.s0 law = Material.ft material / Material.E material
  /\ Trilinear.sc law
     = Material.ft material / Material.E material
       + 4 * PI * (3 + 2 * beta) * Material.Gf material
         / (45 * beta * ParticleSet.horizon particles * Material.ft material)
  /\ Trilinear.s1 law
     = Material.ft material / Material.E material
       + 8 * PI * (1 - beta) * Material.Gf material
         / (45 * ParticleSet.horizon particles * Material.ft material)
  /\ Trilinear.c law * t
     = 9 * Material.E material / (PI * ParticleSet.horizon particles ^ 3).
Proof.
  intros Hinit.
  pose proof (proj2 (Trilinear_init_Ok_iff material particles t beta)
                (ex_intro _ law Hinit))
    as (Ht & Hh & HE & Hft & Hb0 & Hb1 & Hb).
  rewrite Trilinear_init_nonzero in Hinit by (assumption || lra).
  cbv zeta in Hinit. injection Hinit as <-.
  cbn [Trilinear.s0 Trilinear.sc Trilinear.s1 Trilinear.c].
  unfold np.pi. pose proof PI_neq0 as Hpi.
  repeat split; field; repeat split; try assumption; lra.
Qed.

(** X11.  The critical stretch of a linear law constructed without
    explicit values is non-negative and gives the fracture energy back:
    [9 E horizon sc^2 = 4 pi Gf]. *)
Theorem X11_linear_critical_stretch_recovers_fracture_energy
  material particles t damage_on :
  0 < Material.E material ->
  0 < ParticleSet.horizon particles ->
  t <> 0 ->
  0 <= Material.Gf material ->
  exists law,
    Linear.__init__ linear material particles t None None damage_on = Ok law
    /\ 0 <= Linear.sc law
    /\ 9 * Material.E material * ParticleSet.horizon particles
       * Linear.sc law ^ 2
       = 4 * PI * Material.Gf material.
Proof.
  intros HE Hh Ht HGf.
  rewrite Linear_init_derived by (assumption || lra).
  cbv zeta. eexists. split; [reflexivity|].
  cbn [Linear.sc]. unfold np.sqrt, np.pi.
  set (q := 4 * PI * Material.Gf material
            / (9 * Material.E material * ParticleSet.horizon particles)).
  assert (Hq : 0 <= q).
  { unfold q. apply Rmult_le_pos.
    - pose proof PI_RGT_0. nra.
    - left. apply Rinv_0_lt_compat. nra. }
  split; [apply sqrt_pos|].
  replace (sqrt q ^ 2) with (sqrt q * sqrt q) by ring.
  rewrite (sqrt_sqrt q Hq). unfold q. field. split; lra.
Qed.

(** X12.  With explicit non-zero [c], [s0], [sc] and a kink position
    strictly between 0 and 1, the trilinear law is constructed from the
    given values, whatever the material and the particle set; its
    stretches are ordered, [s0 < s1 < sc], exactly when [s0 < sc]. *)
Theorem X12_trilinear_explicit_values_are_not_checked
  material particles t c s0 sc beta :
  c <> 0 -> s0 <> 0 -> sc <> 0 -> 0 < beta < 1 ->
  exists law,
    Trilinear.__init__ trilinear material particles t
      (Some c) (Some s0) (Some sc) beta = Ok law
    /\ Trilinear.c law = c
    /\ Trilinear.s0 law = s0
    /\ Trilinear.sc law = sc
    /\ Trilinear.s1 law = s0 + (sc - s0) / Trilinear.gamma law
    /\ (Trilinear.s0 law < Trilinear.s1 law
        /\ Trilinear.s1 law < Trilinear.sc law
        <-> s0 < sc).
Proof.
  intros Hc Hs0 Hsc [Hb0 Hb1].
  set (gamma := (3 + 2 * beta) / (2 * beta * (1 - beta))).
  assert (Hkink : 0 < 2 * beta * (1 - beta)) by nra.
  assert (Hgamma : 1 < gamma).
  { assert (Hm : gamma * (2 * beta * (1 - beta)) = 3 + 2 * beta)
      by (unfold gamma; field; lra).
    assert (Hk : 2 * beta * (1 - beta) < 3 + 2 * beta) by nra.
    nra. }
  exists {| Trilinear.t := t; Trilinear.beta := beta;
            Trilinear.gamma := gamma; Trilinear.c := c; Trilinear.s0 := s0;
            Trilinear.sc := sc; Trilinear.s1 := s0 + (sc - s0) / gamma;
            Trilinear.calculate_bond_damage :=
              Trilinear._calculate_bond_damage trilinear s0
                (s0 + (sc - s0) / gamma) sc beta |}.
  split.
  - unfold Trilinear.__init__, Trilinear._calculate_gamma,
      Trilinear._calculate_s1.
    rewrite (truediv_nonzero _ (2 * beta * (1 - beta))) by lra.
    rewrite bind_Ok. cbn beta. fold gamma.
    rewrite (or_else_nonzero c) by assumption. rewrite bind_Ok. cbn beta.
    rewrite (or_else_nonzero s0) by assumption. rewrite bind_Ok. cbn beta.
    rewrite (or_else_nonzero sc) by assumption. rewrite bind_Ok. cbn beta.
    rewrite (truediv_nonzero _ gamma) by lra. reflexivity.
  - cbn [Trilinear.c Trilinear.s0 Trilinear.sc Trilinear.s1
         Trilinear.gamma].
    split; [reflexivity|]. split; [reflexivity|]. split; [reflexivity|].
    split; [reflexivity|].
    assert (Hm : (sc - s0) / gamma * gamma = sc - s0) by (field; lra).
    split.
    + intros [H1 H2]. lra.
    + intros Hlt.
      assert (Hr : 0 < (sc - s0) / gamma)
        by (apply Rdiv_lt_0_compat; lra).
      split; nra.
Qed.

(** X13.  With explicit non-zero [c], [s0], [sc] the trilinear constructor
    reads neither the material nor the particle set, and it succeeds
    exactly when [beta] is none of [0], [1] (where [gamma] is undefined)
    and [-3/2] (where [gamma] is zero and [s1] undefined); otherwise it
    raises [ZeroDivisionError]. *)
Theorem X13_trilinear_explicit_values_fail_only_on_beta
  material particles t c s0 sc beta :
  c <> 0 -> s0 <> 0 -> sc <> 0 ->
  (beta <> 0 /\ beta <> 1 /\ beta <> - (3 / 2) ->
   exists law,
     Trilinear.__init__ trilinear material particles t
       (Some c) (Some s0) (Some sc) beta = Ok law)
  /\ (~ (beta <> 0 /\ beta <> 1 /\ beta <> - (3 / 2)) ->
      Trilinear.__init__ trilinear material particles t
        (Some c) (Some s0) (Some sc) beta = Raise ZeroDivisionError).
Proof.
  intros Hc Hs0 Hsc.
  unfold Trilinear.__init__, Trilinear._calculate_gamma,
    Trilinear._calculate_s1.
  destruct (Req_dec_T (2 * beta * (1 - beta)) 0) as [Hz|Hnz].
  - rewrite (truediv_zero _ _ Hz). split; [|reflexivity].
    intros (Hb0 & Hb1 & _). exfalso.
    apply Rmult_integral in Hz as [Hz|Hz]; lra.
  - rewrite (truediv_nonzero _ _ Hnz). rewrite bind_Ok. cbn beta.
    rewrite (or_else_nonzero c) by assumption. rewrite bind_Ok. cbn beta.
    rewrite (or_else_nonzero s0) by assumption. rewrite bind_Ok. cbn beta.
    rewrite (or_else_nonzero sc) by assumption. rewrite bind_Ok. cbn beta.
    destruct (Req_dec_T ((3 + 2 * beta) / (2 * beta * (1 - beta))) 0)
      as [Hg|Hg].
    + rewrite (truediv_zero _ _ Hg). split; [|reflexivity].
      intros (_ & _ & Hb). exfalso.
      apply (Rdiv_nonzero (3 + 2 * beta) (2 * beta * (1 - beta)));
        [lra|exact Hnz|exact Hg].
    + rewrite (truediv_nonzero _ _ Hg). split.
      * intros _. eexists. reflexivity.
      * intros Hnot. exfalso. apply Hnot.
        repeat split.
        -- intros ->. apply Hnz. lra.
        -- intros ->. apply Hnz. lra.
        -- intros ->. apply Hg. unfold Rdiv.
           replace (3 + 2 * - (3 * / 2)) with 0 by lra. ring.
Qed.

(** X14.  In the trilinear and the non-linear constructor, as in the
    linear one, an explicit [0] for [c], [s0] or [sc] is falsy and is
    treated as if the argument had been omitted. *)
Theorem X14_explicit_zero_is_treated_as_omitted
  material particles t c s0 sc beta alpha k :
  (Trilinear.__init__ trilinear material particles t (Some 0) s0 sc beta
   = Trilinear.__init__ trilinear material particles t None s0 sc beta
   /\ Trilinear.__init__ trilinear material particles t c (Some 0) sc beta
      = Trilinear.__init__ trilinear material particles t c None sc beta
   /\ Trilinear.__init__ trilinear material particles t c s0 (Some 0) beta
      = Trilinear.__init__ trilinear material particles t c s0 None beta)
  /\ (NonLinear.__init__ nonlinear material particles t (Some 0) s0 sc
        alpha k
      = NonLinear.__init__ nonlinear material particles t None s0 sc
          alpha k
      /\ NonLinear.__init__ nonlinear material particles t c (Some 0) sc
           alpha k
         = NonLinear.__init__ nonlinear material particles t c None sc
             alpha k
      /\ NonLinear.__init__ nonlinear material particles t c s0 (Some 0)
           alpha k
         = NonLinear.__init__ nonlinear material particles t c s0 None
             alpha k).
Proof.
  unfold Trilinear.__init__, NonLinear.__init__.
  repeat split.
  all: repeat match goal with
       | |- (?m ≫= _) = (?m ≫= _) =>
           destruct m; [rewrite !bind_Ok; cbn beta|reflexivity]
       end.
  all: rewrite or_else_zero, ?or_else_None; reflexivity.
Qed.

(** X15.  A linear law constructed with damage off does not keep the
    ratchet: its result is elementwise at least [d] exactly when no entry
    of [d] is positive. *)
Theorem X15_damage_off_heals_positive_damage
  material particles t c sc law :
  Linear.__init__ linear material particles t c sc false = Ok law ->
  forall stretch d,
    Forall2 Rle d (Linear.calculate_bond_damage law stretch d)
    <-> Forall (fun a => a <= 0) d.
Proof.
  intros H stretch d.
  rewrite (Linear_closure _ _ _ _ _ _ _ _ H).
  cbn. unfold np.zeros_like.
  induction d as [|a d IH]; cbn [map].
  - split; constructor.
  - split.
    + intros Hall. inversion Hall as [|? ? ? ? Ha Hd]; subst.
      constructor; [exact Ha|]. apply IH. exact Hd.
    + intros Hall. inversion Hall as [|? ? Ha Hd]; subst.
      constructor; [exact Ha|]. apply IH. exact Hd.
Qed.

(** X16.  In a non-linear law constructed without explicit values the
    thickness cancels out of the stretches as well: two thicknesses give
    the same [s0] and [sc], and stiffnesses with [c * t = c' * t']. *)
Theorem X16_nonlinear_stretches_do_not_depend_on_thickness
  material particles t t' alpha k law law' :
  NonLinear.__init__ nonlinear material particles t None None None alpha k
  = Ok law ->
  NonLinear.__init__ nonlinear material particles t' None None None alpha k
  = Ok law' ->
  NonLinear.s0 law = NonLinear.s0 law'
  /\ NonLinear.sc law = NonLinear.sc law'
  /\ NonLinear.c law * t = NonLinear.c law' * t'.
Proof.
  intros H H'.
  assert (Hnz : forall u law0,
            NonLinear.__init__ nonlinear material particles u None None None
              alpha k = Ok law0 ->
            u <> 0 /\ ParticleSet.horizon particles <> 0
            /\ Material.E material <> 0).
  { intros u law0 Hu. unfold NonLinear.__init__ in Hu.
    apply bind_inv in Hu as (c0 & Hc0 & Hu).
    apply bind_inv in Hu as (s00 & Hs00 & _).
    rewrite or_else_None in Hc0, Hs00.
    apply truediv_Ok_inv in Hc0 as [Hpi _].
    apply truediv_Ok_inv in Hs00 as [HE _].
    repeat split; [| |exact HE].
    - intros ->. apply Hpi. lra.
    - intros Hh. apply Hpi. rewrite Hh. lra. }
  destruct (Hnz t law H) as (Ht & Hh & HE).
  destruct (Hnz t' law' H') as (Ht' & _ & _).
  rewrite NonLinear_init_derived in H, H' by assumption.
  cbv zeta in H, H'.
  apply Ok_inj in H. apply Ok_inj in H'. subst law law'.
  cbn [NonLinear.s0 NonLinear.sc NonLinear.c].
  pose proof PI_neq0 as Hpi.
  assert (Hc : t * (9 * Material.E material
                    / (np.pi * t * ParticleSet.horizon particles ^ 3))
               = t' * (9 * Material.E material
                       / (np.pi * t' * ParticleSet.horizon particles ^ 3))).
  { unfold np.pi. field. repeat split; assumption. }
  split; [reflexivity|]. split.
  - unfold NonLinear._calculate_sc. cbv zeta. rewrite Hc. reflexivity.
  - rewrite (Rmult_comm _ t), (Rmult_comm _ t'). exact Hc.
Qed.

End ConstitutiveMore.

(** X17.  Neither the base class nor [Bilinear] can be instantiated,
    whatever the arguments: [__init__] is declared without [self], so the
    call that passes the new instance raises [TypeError]. *)
Theorem X17_base_classes_cannot_be_instantiated :
  forall args,
    ConstitutiveLaw.instantiate ConstitutiveLaw.mro args = Raise TypeError
    /\ ConstitutiveLaw.instantiate Bilinear.mro args = Raise TypeError.
Proof.
  intros args. unfold ConstitutiveLaw.instantiate.
  rewrite Bilinear_getattr___init__.
  replace (mro_lookup ConstitutiveLaw.mro "__init__")
    with (Some ConstitutiveLaw.def___init__) by (vm_compute; reflexivity).
  split; reflexivity.
Qed.

(** ** Properties of the animation *)

Lemma append_empty_inv (s t : string) :
  (s +:+ t)%string = ""%string -> t = ""%string.
Proof.
  destruct s; cbn; [intros H; exact H|discriminate].
Qed.

(** X18.  The name of an animation is never empty: a non-empty [name]
    argument is kept, and [None] or the empty string give the timestamp
    followed by [-animation.gif]. *)
Theorem X18_animation_name_is_never_empty
  timestamp frequency name sz dsf :
  Animation.name (Animation.__init__ timestamp frequency name sz dsf)
  <> ""%string
  /\ (forall s, name = Some s -> s <> ""%string ->
        Animation.name (Animation.__init__ timestamp frequency name sz dsf)
        = s)
  /\ (name = None \/ name = Some ""%string ->
      Animation.name (Animation.__init__ timestamp frequency name sz dsf)
      = (timestamp +:+ "-animation.gif")%string).
Proof.
  cbn [Animation.__init__ Animation.name].
  unfold Animation.name_or, Animation._generate_animation_name.
  assert (Hgen : (timestamp +:+ "-animation.gif")%string <> ""%string).
  { intros H. apply append_empty_inv in H. discriminate H. }
  split; [|split].
  - destruct name as [s|]; [|exact Hgen].
    destruct (decide (s = ""%string)); assumption.
  - intros s -> Hs. destruct (decide (s = ""%string)); [contradiction|].
    reflexivity.
  - intros [->| ->]; reflexivity.
Qed.

Lemma getitem_int_in_range {A} (l : list A) (i : Z) :
  (0 <= i < Z.of_nat (length l))%Z ->
  builtins.getitem_int l i = getitem l (Z.to_nat i).
Proof.
  intros Hi. unfold builtins.getitem_int.
  destruct (Z.ltb_spec i 0); [lia|reflexivity].
Qed.

Lemma getitem_int_negative {A} (l : list A) (i : Z) :
  (- Z.of_nat (length l) <= i < 0)%Z ->
  builtins.getitem_int l i
  = builtins.getitem_int l (i + Z.of_nat (length l)).
Proof.
  intros Hi. unfold builtins.getitem_int. cbv zeta.
  destruct (Z.ltb_spec i 0); [|lia].
  destruct (Z.ltb_spec (i + Z.of_nat (length l)) 0); [lia|].
  reflexivity.
Qed.

Lemma getitem_int_out_of_range {A} (l : list A) (i : Z) :
  (i < - Z.of_nat (length l) \/ Z.of_nat (length l) <= i)%Z ->
  builtins.getitem_int l i = Raise IndexError.
Proof.
  intros Hi. unfold builtins.getitem_int. cbv zeta.
  destruct (Z.ltb_spec i 0).
  - destruct (Z.ltb_spec (i + Z.of_nat (length l)) 0); [reflexivity|lia].
  - unfold getitem. rewrite lookup_ge_None_2 by lia. reflexivity.
Qed.

(** X19.  Frames are addressed like a Python list: an index below
    [-len(frames)] or from [len(frames)] on raises [IndexError], and a
    negative index [i] in range reads the frame at [i + len(frames)]. *)
Theorem X19_frame_index_wraps_or_raises (self : Animation.instance) i :
  ((i < - Z.of_nat (length (Animation.frames self))
    \/ Z.of_nat (length (Animation.frames self)) <= i)%Z ->
   Animation._get_data_from_frame self i = Raise IndexError)
  /\ ((- Z.of_nat (length (Animation.frames self)) <= i < 0)%Z ->
      Animation._get_data_from_frame self i
      = Animation._get_data_from_frame self
          (i + Z.of_nat (length (Animation.frames self)))).
Proof.
  unfold Animation._get_data_from_frame. split; intros Hi.
  - rewrite getitem_int_out_of_range by exact Hi. reflexivity.
  - rewrite getitem_int_negative by exact Hi. reflexivity.
Qed.

Section SaveFrame.

Context {P : Type}.
Variable plot_particles : P -> plt.Figure -> R -> R -> plt.Figure.

(** X20.  Saving a frame appends the figure drawn by [plot_particles] on
    a fresh 12 by 6 figure with the [sz] and [dsf] of the animation: the
    frames saved before are read as before, and the new one is read at
    index [-1] as at index [len(frames) - 1]. *)
Theorem X20_saved_frame_is_read_back (self : Animation.instance)
  (particles : P) :
  let saved := Animation.save_frame plot_particles self particles in
  let drawn :=
    plot_particles particles (plt.figure (12, 6)) (Animation.sz self)
      (Animation.dsf self) in
  length (Animation.frames saved) = S (length (Animation.frames self))
  /\ (forall i, (0 <= i < Z.of_nat (length (Animation.frames self)))%Z ->
        Animation._get_data_from_frame saved i
        = Animation._get_data_from_frame self i)
  /\ builtins.getitem_int (Animation.frames saved) (-1) = Ok drawn
  /\ Animation._get_data_from_frame saved (-1)
     = Animation._get_data_from_frame saved
         (Z.of_nat (length (Animation.frames self))).
Proof.
  cbv zeta.
  set (saved := Animation.save_frame plot_particles self particles).
  set (drawn := plot_particles particles (plt.figure (12, 6))
                  (Animation.sz self) (Animation.dsf self)).
  assert (Hframes : Animation.frames saved
                    = Animation.frames self ++ [drawn]) by reflexivity.
  assert (Hlen : length (Animation.frames saved)
                 = S (length (Animation.frames self))).
  { rewrite Hframes, length_app. cbn. lia. }
  split; [exact Hlen|]. split; [|split].
  - intros i Hi. unfold Animation._get_data_from_frame.
    rewrite !getitem_int_in_range by (rewrite ?Hlen; lia).
    unfold getitem. rewrite Hframes.
    rewrite lookup_app_l by lia. reflexivity.
  - rewrite getitem_int_negative by (rewrite Hlen; lia).
    rewrite getitem_int_in_range by (rewrite Hlen; lia).
    unfold getitem. rewrite Hlen, Hframes.
    replace (Z.to_nat (-1 + Z.of_nat (S (length (Animation.frames self)))))
      with (length (Animation.frames self) + 0)%nat by lia.
    rewrite lookup_app_r by lia.
    replace (length (Animation.frames self) + 0
             - length (Animation.frames self))%nat with 0%nat by lia.
    reflexivity.
  - unfold Animation._get_data_from_frame.
    rewrite (getitem_int_negative _ (-1)) by (rewrite Hlen; lia).
    rewrite Hlen. do 2 f_equal. lia.
Qed.

End SaveFrame.

Lemma foldl_min_spec (l : list R) (a : R) :
  let m := foldl (fun best item => if Rlt_dec item best then item else best)
             a l in
  m <= a /\ Forall (fun x => m <= x) l /\ (m = a \/ m ∈ l).
Proof.
  revert a. induction l as [|b l IH]; intros a; cbn [foldl].
  - split; [lra|]. split; [constructor|left; reflexivity].
  - destruct (Rlt_dec b a) as [Hlt|Hge].
    + destruct (IH b) as (H1 & H2 & H3).
      split; [lra|]. split; [constructor; assumption|].
      right. destruct H3 as [->|H3]; [left|right; exact H3].
    + destruct (IH a) as (H1 & H2 & H3).
      split; [exact H1|]. split; [constructor; [lra|exact H2]|].
      destruct H3 as [H3|H3]; [left; exact H3|right; right; exact H3].
Qed.

Lemma foldl_max_spec (l : list R) (a : R) :
  let m := foldl (fun best item => if Rlt_dec best item then item else best)
             a l in
  a <= m /\ Forall (fun x => x <= m) l /\ (m = a \/ m ∈ l).
Proof.
  revert a. induction l as [|b l IH]; intros a; cbn [foldl].
  - split; [lra|]. split; [constructor|left; reflexivity].
  - destruct (Rlt_dec a b) as [Hlt|Hge].
    + destruct (IH b) as (H1 & H2 & H3).
      split; [lra|]. split; [constructor; assumption|].
      right. destruct H3 as [->|H3]; [left|right; exact H3].
    + destruct (IH a) as (H1 & H2 & H3).
      split; [exact H1|]. split; [constructor; [lra|exact H2]|].
      destruct H3 as [H3|H3]; [left; exact H3|right; right; exact H3].
Qed.

(** [min] and [max] of a non-empty list: bounds that are attained. *)
Lemma min_max_nonempty (l : list R) :
  l <> [] ->
  exists lo hi,
    builtins.min l = Ok lo /\ builtins.max l = Ok hi
    /\ Forall (fun x => lo <= x <= hi) l /\ lo ∈ l /\ hi ∈ l.
Proof.
  destruct l as [|a l]; [contradiction|]. intros _.
  destruct (foldl_min_spec l a) as (Hm1 & Hm2 & Hm3).
  destruct (foldl_max_spec l a) as (HM1 & HM2 & HM3).
  eexists _, _. split; [reflexivity|]. split; [reflexivity|].
  split; [|split].
  - constructor; [split; assumption|].
    rewrite Forall_forall in Hm2, HM2. apply Forall_forall.
    intros x Hx. split; [apply Hm2|apply HM2]; exact Hx.
  - destruct Hm3 as [->|H]; [left|right; exact H].
  - destruct HM3 as [->|H]; [left|right; exact H].
Qed.

Lemma get_data_Ok_inv self i xs ys :
  Animation._get_data_from_frame self i = Ok (xs, ys) ->
  exists fig axes0 scatter,
    builtins.getitem_int (Animation.frames self) i = Ok fig
    /\ plt.axes fig !! 0%nat = Some axes0
    /\ plt.collections axes0 !! 0%nat = Some scatter
    /\ xs = map fst (plt.offsets scatter)
    /\ ys = map snd (plt.offsets scatter).
Proof.
  unfold Animation._get_data_from_frame. intros H.
  apply bind_inv in H as (fig & Hfig & H).
  apply bind_inv in H as (axes0 & Haxes & H).
  apply bind_inv in H as (scatter & Hsc & H).
  unfold getitem in Haxes, Hsc.
  destruct (plt.axes fig !! 0%nat) as [a|] eqn:Ha; [|discriminate].
  destruct (plt.collections axes0 !! 0%nat) as [c|] eqn:Hc; [|discriminate].
  apply Ok_inj in Haxes. apply Ok_inj in Hsc. subst a c.
  apply Ok_inj in H. unfold plt.T in H.
  exists fig, axes0, scatter. rewrite Ha.
  repeat split; try assumption; congruence.
Qed.

Lemma set_axis_limits_spec self i xs ys :
  Animation._get_data_from_frame self i = Ok (xs, ys) ->
  (xs = [] -> Animation._set_axis_limits self i = Raise ValueError)
  /\ (xs <> [] ->
      exists self' x_min x_max y_min y_max,
        Animation._set_axis_limits self i = Ok self'
        /\ plt.xlim (Animation.ax self') = Some (x_min, x_max)
        /\ plt.ylim (Animation.ax self') = Some (y_min, y_max)
        /\ Forall (fun x => x_min <= x <= x_max) xs
        /\ Forall (fun y => y_min <= y <= y_max) ys
        /\ x_min ∈ xs /\ x_max ∈ xs /\ y_min ∈ ys /\ y_max ∈ ys
        /\ Animation.frames self' = Animation.frames self
        /\ plt.collections (Animation.ax self')
           = plt.collections (Animation.ax self)).
Proof.
  intros Hdata.
  destruct (get_data_Ok_inv _ _ _ _ Hdata)
    as (fig & axes0 & scatter & _ & _ & _ & Hxs & Hys).
  unfold Animation._set_axis_limits. rewrite Hdata, bind_Ok.
  split.
  - intros ->. reflexivity.
  - intros Hne.
    assert (Hne' : ys <> []).
    { subst xs ys. destruct (plt.offsets scatter); [contradiction|].
      discriminate. }
    destruct (min_max_nonempty xs Hne)
      as (x_min & x_max & Hxmin & Hxmax & Hx & Hx1 & Hx2).
    destruct (min_max_nonempty ys Hne')
      as (y_min & y_max & Hymin & Hymax & Hy & Hy1 & Hy2).
    rewrite Hxmin, bind_Ok, Hxmax, bind_Ok. cbv zeta.
    rewrite Hymin, bind_Ok, Hymax, bind_Ok.
    eexists _, x_min, x_max, y_min, y_max.
    split; [reflexivity|]. cbn.
    repeat split; assumption.
Qed.

(** X21.  [_set_axis_limits] on a frame whose scatter has no point raises
    [ValueError]; on any other frame it requests limits that are
    coordinates of points of the scatter and enclose all of them, and it
    changes neither the frames nor the scatters on the axes. *)
Theorem X21_axis_limits_enclose_the_scatter self i xs ys :
  Animation._get_data_from_frame self i = Ok (xs, ys) ->
  (xs = [] -> Animation._set_axis_limits self i = Raise ValueError)
  /\ (xs <> [] ->
      exists self' x_min x_max y_min y_max,
        Animation._set_axis_limits self i = Ok self'
        /\ plt.xlim (Animation.ax self') = Some (x_min, x_max)
        /\ plt.ylim (Animation.ax self') = Some (y_min, y_max)
        /\ Forall (fun x => x_min <= x <= x_max) xs
        /\ Forall (fun y => y_min <= y <= y_max) ys
        /\ x_min ∈ xs /\ x_max ∈ xs /\ y_min ∈ ys /\ y_max ∈ ys
        /\ Animation.frames self' = Animation.frames self
        /\ plt.collections (Animation.ax self')
           = plt.collections (Animation.ax self)).
Proof. exact (set_axis_limits_spec self i xs ys). Qed.

(** X22.  [_update] starts by clearing the axes, so its outcome does not
    depend on what earlier updates left there.  On a frame whose first
    axes has a first scatter with at least one point, it returns a scatter
    with the offsets, sizes and colour array of that one, leaves it as the
    only scatter on the axes, under the title [frame <index>], and keeps
    the frames; on a scatter without points it raises [ValueError]. *)
Theorem X22_update_redraws_from_the_frame_alone
  self frame fig axes0 current :
  builtins.getitem_int (Animation.frames self) frame = Ok fig ->
  plt.axes fig !! 0%nat = Some axes0 ->
  plt.collections axes0 !! 0%nat = Some current ->
  (forall ax0,
     Animation._update (Animation.set_ax self ax0) frame
     = Animation._update self frame)
  /\ (plt.offsets current = [] ->
      Animation._update self frame = Raise ValueError)
  /\ (plt.offsets current <> [] ->
      exists self' scatter,
        Animation._update self frame = Ok (self', scatter)
        /\ plt.offsets scatter = plt.offsets current
        /\ plt.sizes scatter = plt.sizes current
        /\ plt.array scatter = plt.array current
        /\ plt.collections (Animation.ax self') = [scatter]
        /\ plt.title (Animation.ax self')
           = Some ("frame " +:+ pretty frame)%string
        /\ Animation.frames self' = Animation.frames self).
Proof.
  intros Hfig Haxes Hcur.
  split; [intros ax0; reflexivity|].
  assert (Hdata : Animation._get_data_from_frame
                    (Animation.set_ax self plt.cleared) frame
                  = Ok (map fst (plt.offsets current),
                        map snd (plt.offsets current))).
  { unfold Animation._get_data_from_frame, getitem.
    cbn [Animation.set_ax Animation.frames].
    rewrite Hfig, bind_Ok, Haxes, bind_Ok, Hcur, bind_Ok. reflexivity. }
  destruct (set_axis_limits_spec _ _ _ _ Hdata) as [Hempty Hfull].
  unfold Animation._update, getitem. cbv zeta.
  cbn [Animation.set_ax Animation.frames].
  rewrite Hfig, bind_Ok, Haxes, bind_Ok, Hcur, bind_Ok.
  split.
  - intros Hnil. rewrite Hempty by (rewrite Hnil; reflexivity).
    reflexivity.
  - intros Hne.
    destruct Hfull as (self1 & x_min & x_max & y_min & y_max & Hlim & _ & _
                       & _ & _ & _ & _ & _ & _ & Hframes & Hcoll).
    { destruct (plt.offsets current); [contradiction|discriminate]. }
    rewrite Hlim, bind_Ok.
    eexists _, _. split; [reflexivity|]. cbn.
    rewrite Hcoll. cbn. repeat split; try reflexivity. exact Hframes.
Qed.

(** ** The further properties at concrete inputs *)

Lemma body_is_planar :
  (ParticleSet.n_nodes Fixture.body
   <= length (ParticleSet.x Fixture.body))%nat
  /\ Forall (fun xi => length xi = length Fixture.origin)
       (ParticleSet.x Fixture.body).
Proof.
  split; [cbn; lia|]. cbn. repeat constructor.
Defined.

Lemma X1_body_witness :
  exists self,
    Penetrator.new Contract.smooth_step_data Contract.calculate_contact_force
      1 Fixture.origin 4.4 Fixture.body = Ok self
    /\ Penetrator.family self
       `sublist_of` seq 0 (ParticleSet.n_nodes Fixture.body)
    /\ NoDup (Penetrator.family self)
    /\ Forall (fun i => (i < ParticleSet.n_nodes Fixture.body)%nat)
         (Penetrator.family self)
    /\ (length (Penetrator.family self)
        <= ParticleSet.n_nodes Fixture.body)%nat.
Proof.
  destruct body_is_planar as [Hn Hdim].
  destruct (new_completes Contract.smooth_step_data
              Contract.calculate_contact_force 1 Fixture.origin 4.4
              Fixture.body Hn Hdim) as [self H].
  exists self. split; [exact H|].
  exact (X1_family_is_an_ascending_selection _ _ _ _ _ _ _ H).
Defined.

Lemma X2_body_witness :
  ((ParticleSet.n_nodes Fixture.body
    <= length (ParticleSet.x Fixture.body))%nat
   /\ Forall (fun xi => length xi = length Fixture.origin)
        (ParticleSet.x Fixture.body))
  /\ exists self,
       Penetrator.new Contract.smooth_step_data
         Contract.calculate_contact_force 1 Fixture.origin 4.4 Fixture.body
       = Ok self
       /\ forall i,
            i ∈ Penetrator.family self
            <-> exists xi,
                  (i < ParticleSet.n_nodes Fixture.body)%nat
                  /\ ParticleSet.x Fixture.body !! i = Some xi
                  /\ Rabs (np.sum xi - np.sum Fixture.origin) <= 4.4 * 1.25.
Proof.
  split; [exact body_is_planar|].
  destruct body_is_planar as [Hn Hdim].
  exact (X2_family_is_a_band_on_the_coordinate_sum
           Contract.smooth_step_data Contract.calculate_contact_force
           1 Fixture.origin 4.4 Fixture.body Hn Hdim).
Defined.

Lemma X3_overcounted_witness :
  (Forall (fun xi => length xi = length Fixture.origin)
     (ParticleSet.x Scenario.overcounted)
   /\ (length (ParticleSet.x Scenario.overcounted)
       < ParticleSet.n_nodes Scenario.overcounted)%nat)
  /\ Penetrator.new Contract.smooth_step_data
       Contract.calculate_contact_force 1 Fixture.origin 4.4
       Scenario.overcounted = Raise IndexError.
Proof.
  assert (Hdim : Forall (fun xi => length xi = length Fixture.origin)
                   (ParticleSet.x Scenario.overcounted))
    by (cbn; repeat constructor).
  assert (Hn : (length (ParticleSet.x Scenario.overcounted)
                < ParticleSet.n_nodes Scenario.overcounted)%nat)
    by (cbn; lia).
  split; [split; assumption|].
  exact (X3_more_nodes_than_positions_raises_IndexError
           Contract.smooth_step_data Contract.calculate_contact_force
           1 Fixture.origin 4.4 Scenario.overcounted Hdim Hn).
Defined.

Lemma X4_mixed_witness :
  Penetrator.new Contract.smooth_step_data Contract.calculate_contact_force
    1 Fixture.origin 4.4 Scenario.mixed = Raise ValueError.
Proof.
  apply (X4_incompatible_dimension_raises_ValueError
           Contract.smooth_step_data Contract.calculate_contact_force
           1 Fixture.origin 4.4 Scenario.mixed 1%nat [1; 2; 3]).
  - cbn. lia.
  - cbn. lia.
  - reflexivity.
  - cbn. lia.
  - cbn. lia.
  - cbn. lia.
Defined.

Lemma X5_negative_radius_witness :
  -1 < 0
  /\ exists self,
       Penetrator.new Contract.smooth_step_data
         Contract.calculate_contact_force 1 Fixture.origin (-1) Fixture.body
       = Ok self
       /\ Penetrator.family self = [].
Proof.
  assert (Hr : -1 < 0) by lra.
  split; [exact Hr|].
  destruct body_is_planar as [Hn Hdim].
  destruct (new_completes Contract.smooth_step_data
              Contract.calculate_contact_force 1 Fixture.origin (-1)
              Fixture.body Hn Hdim) as [self H].
  exists self. split; [exact H|].
  exact (X5_negative_radius_gives_empty_family _ _ _ _ _ _ _ Hr H).
Defined.

Lemma X6_radii_witness :
  1 <= 4.4
  /\ exists self self',
       Penetrator.new Contract.smooth_step_data
         Contract.calculate_contact_force 1 Fixture.origin 1 Fixture.body
       = Ok self
       /\ Penetrator.new Contract.smooth_step_data
            Contract.calculate_contact_force 2 Fixture.origin 4.4
            Fixture.body = Ok self'
       /\ forall i,
            i ∈ Penetrator.family self -> i ∈ Penetrator.family self'.
Proof.
  assert (Hr : 1 <= 4.4) by lra.
  split; [exact Hr|].
  destruct body_is_planar as [Hn Hdim].
  destruct (new_completes Contract.smooth_step_data
              Contract.calculate_contact_force 1 Fixture.origin 1
              Fixture.body Hn Hdim) as [self H].
  destruct (new_completes Contract.smooth_step_data
              Contract.calculate_contact_force 2 Fixture.origin 4.4
              Fixture.body Hn Hdim) as [self' H'].
  exists self, self'. split; [exact H|]. split; [exact H'|].
  exact (X6_family_grows_with_the_radius _ _ _ _ _ _ _ _ _ _ Hr H H').
Defined.

Lemma steel_is_nonzero :
  Fixture.thickness <> 0
  /\ ParticleSet.horizon Fixture.body <> 0
  /\ Material.E Fixture.steel <> 0.
Proof.
  destruct steel_is_valid as (HE & _ & _ & Hh & Ht).
  repeat split; lra.
Defined.

Lemma X8_steel_witness :
  (exists law,
     Linear.__init__ Contract.linear Fixture.steel Fixture.body
       Fixture.thickness None None true = Ok law)
  /\ (exists law,
        NonLinear.__init__ Contract.nonlinear Fixture.steel Fixture.body
          Fixture.thickness None None None NonLinear.default_alpha
          NonLinear.default_k = Ok law)
  /\ Linear.__init__ Contract.linear Fixture.steel Fixture.collapsed
       Fixture.thickness None None true = Raise ZeroDivisionError
  /\ NonLinear.__init__ Contract.nonlinear Fixture.steel Fixture.collapsed
       Fixture.thickness None None None NonLinear.default_alpha
       NonLinear.default_k = Raise ZeroDivisionError.
Proof.
  destruct (X8_linear_and_nonlinear_construct_iff_nonzero
              Contract.linear Contract.nonlinear Fixture.steel Fixture.body
              Fixture.thickness true NonLinear.default_alpha
              NonLinear.default_k) as [Hok _].
  destruct (X8_linear_and_nonlinear_construct_iff_nonzero
              Contract.linear Contract.nonlinear Fixture.steel
              Fixture.collapsed Fixture.thickness true
              NonLinear.default_alpha NonLinear.default_k) as [_ Hraise].
  destruct (Hok steel_is_nonzero) as [Hl Hn].
  destruct Hraise as [Hl' Hn'].
  { intros (_ & Hh & _). apply Hh. reflexivity. }
  repeat split; assumption.
Defined.

Lemma X9_steel_witness :
  (exists law,
     Trilinear.__init__ Contract.trilinear Fixture.steel Fixture.body
       Fixture.thickness None None None Trilinear.default_beta = Ok law)
  /\ Trilinear.__init__ Contract.trilinear Fixture.steel Fixture.body
       Fixture.thickness None None None 1 = Raise ZeroDivisionError.
Proof.
  destruct steel_is_valid as (HE & _ & Hft & Hh & Ht).
  destruct (X9_trilinear_constructs_iff_nonzero Contract.trilinear
              Fixture.steel Fixture.body Fixture.thickness
              Trilinear.default_beta) as [Hok _].
  destruct (X9_trilinear_constructs_iff_nonzero Contract.trilinear
              Fixture.steel Fixture.body Fixture.thickness 1)
    as [_ Hraise].
  split.
  - apply Hok. unfold Trilinear.default_beta. repeat split; lra.
  - apply Hraise. intros (_ & _ & _ & _ & _ & H1 & _). apply H1.
    reflexivity.
Defined.

Lemma X10_steel_witness :
  exists law,
    Trilinear.__init__ Contract.trilinear Fixture.steel Fixture.body
      Fixture.thickness None None None Trilinear.default_beta = Ok law
    /\ Trilinear.s0 law = 1e7 / 2e11
    /\ Trilinear.sc law
       = 1e7 / 2e11
         + 4 * PI * (3 + 2 * 0.25) * 40 / (45 * 0.25 * 0.003 * 1e7)
    /\ Trilinear.s1 law
       = 1e7 / 2e11 + 8 * PI * (1 - 0.25) * 40 / (45 * 0.003 * 1e7)
    /\ Trilinear.c law * 0.001 = 9 * 2e11 / (PI * 0.003 ^ 3).
Proof.
  destruct steel_is_valid as (HE & HGf & Hft & Hh & Ht).
  destruct (Trilinear_init_derived Contract.trilinear Fixture.steel
              Fixture.body Fixture.thickness Trilinear.default_beta
              HE HGf Hft Hh Ht) as (law & Hinit & _).
  { unfold Trilinear.default_beta. lra. }
  exists law. split; [exact Hinit|].
  exact (X10_trilinear_stretches_do_not_depend_on_thickness
           Contract.trilinear Fixture.steel Fixture.body Fixture.thickness
           Trilinear.default_beta law Hinit).
Defined.

Lemma X11_steel_witness :
  (0 < Material.E Fixture.steel
   /\ 0 < ParticleSet.horizon Fixture.body
   /\ Fixture.thickness <> 0
   /\ 0 <= Material.Gf Fixture.steel)
  /\ exists law,
       Linear.__init__ Contract.linear Fixture.steel Fixture.body
         Fixture.thickness None None true = Ok law
       /\ 0 <= Linear.sc law
       /\ 9 * 2e11 * 0.003 * Linear.sc law ^ 2 = 4 * PI * 40.
Proof.
  destruct steel_is_valid as (HE & HGf & _ & Hh & Ht).
  assert (Ht' : Fixture.thickness <> 0) by lra.
  assert (HGf' : 0 <= Material.Gf Fixture.steel) by lra.
  split; [repeat split; assumption|].
  exact (X11_linear_critical_stretch_recovers_fracture_energy
           Contract.linear Fixture.steel Fixture.body Fixture.thickness
           true HE Hh Ht' HGf').
Defined.

Lemma X12_explicit_witness :
  (5 <> 0 /\ 0.001 <> 0 /\ 0.01 <> 0 /\ 0 < 0.25 < 1)
  /\ exists law,
       Trilinear.__init__ Contract.trilinear Fixture.steel
         Fixture.collapsed Fixture.thickness (Some 5) (Some 0.001)
         (Some 0.01) 0.25 = Ok law
       /\ Trilinear.c law = 5
       /\ Trilinear.s0 law = 0.001
       /\ Trilinear.sc law = 0.01
       /\ Trilinear.s1 law = 0.001 + (0.01 - 0.001) / Trilinear.gamma law
       /\ (Trilinear.s0 law < Trilinear.s1 law
           /\ Trilinear.s1 law < Trilinear.sc law
           <-> 0.001 < 0.01).
Proof.
  assert (Hc : 5 <> 0) by lra.
  assert (Hs0 : 0.001 <> 0) by lra.
  assert (Hsc : 0.01 <> 0) by lra.
  assert (Hb : 0 < 0.25 < 1) by lra.
  split; [repeat split; assumption || lra|].
  exact (X12_trilinear_explicit_values_are_not_checked Contract.trilinear
           Fixture.steel Fixture.collapsed Fixture.thickness
           5 0.001 0.01 0.25 Hc Hs0 Hsc Hb).
Defined.

Lemma X13_explicit_witness :
  (5 <> 0 /\ 0.001 <> 0 /\ 0.01 <> 0)
  /\ (exists law,
        Trilinear.__init__ Contract.trilinear Fixture.steel
          Fixture.collapsed Fixture.thickness (Some 5) (Some 0.001)
          (Some 0.01) 0.25 = Ok law)
  /\ Trilinear.__init__ Contract.trilinear Fixture.steel Fixture.collapsed
       Fixture.thickness (Some 5) (Some 0.001) (Some 0.01) (- (3 / 2))
     = Raise ZeroDivisionError.
Proof.
  assert (Hc : 5 <> 0) by lra.
  assert (Hs0 : 0.001 <> 0) by lra.
  assert (Hsc : 0.01 <> 0) by lra.
  split; [repeat split; assumption|].
  destruct (X13_trilinear_explicit_values_fail_only_on_beta
              Contract.trilinear Fixture.steel Fixture.collapsed
              Fixture.thickness 5 0.001 0.01 0.25 Hc Hs0 Hsc)
    as [Hok _].
  destruct (X13_trilinear_explicit_values_fail_only_on_beta
              Contract.trilinear Fixture.steel Fixture.collapsed
              Fixture.thickness 5 0.001 0.01 (- (3 / 2)) Hc Hs0 Hsc)
    as [_ Hraise].
  split.
  - apply Hok. repeat split; lra.
  - apply Hraise. intros (_ & _ & H). apply H. reflexivity.
Defined.

Lemma X15_damage_off_witness :
  exists law,
    Linear.__init__ Contract.linear Fixture.steel Fixture.body
      Fixture.thickness None None false = Ok law
    /\ (Forall2 Rle [0; 0.3]
          (Linear.calculate_bond_damage law [0.01; 0.02] [0; 0.3])
        <-> Forall (fun a => a <= 0) [0; 0.3]).
Proof.
  destruct steel_is_nonzero as (Ht & Hh & HE).
  pose proof (Linear_init_derived Contract.linear Fixture.steel Fixture.body
                Fixture.thickness false Ht Hh HE) as Hinit.
  cbv zeta in Hinit. eexists. split; [exact Hinit|].
  exact (X15_damage_off_heals_positive_damage Contract.linear Fixture.steel
           Fixture.body Fixture.thickness None None _ Hinit
           [0.01; 0.02] [0; 0.3]).
Defined.

Lemma X16_two_thicknesses_witness :
  exists law law',
    NonLinear.__init__ Contract.nonlinear Fixture.steel Fixture.body
      Fixture.thickness None None None NonLinear.default_alpha
      NonLinear.default_k = Ok law
    /\ NonLinear.__init__ Contract.nonlinear Fixture.steel Fixture.body
         (2 * Fixture.thickness) None None None NonLinear.default_alpha
         NonLinear.default_k = Ok law'
    /\ NonLinear.s0 law = NonLinear.s0 law'
    /\ NonLinear.sc law = NonLinear.sc law'
    /\ NonLinear.c law * Fixture.thickness
       = NonLinear.c law' * (2 * Fixture.thickness).
Proof.
  destruct steel_is_nonzero as (Ht & Hh & HE).
  assert (Ht' : 2 * Fixture.thickness <> 0) by lra.
  pose proof (NonLinear_init_derived Contract.nonlinear Fixture.steel
                Fixture.body Fixture.thickness NonLinear.default_alpha
                NonLinear.default_k Ht Hh HE) as Hinit.
  pose proof (NonLinear_init_derived Contract.nonlinear Fixture.steel
                Fixture.body (2 * Fixture.thickness)
                NonLinear.default_alpha NonLinear.default_k Ht' Hh HE)
    as Hinit'.
  cbv zeta in Hinit, Hinit'. eexists _, _.
  split; [exact Hinit|]. split; [exact Hinit'|].
  exact (X16_nonlinear_stretches_do_not_depend_on_thickness
           Contract.nonlinear Fixture.steel Fixture.body Fixture.thickness
           (2 * Fixture.thickness) NonLinear.default_alpha
           NonLinear.default_k _ _ Hinit Hinit').
Defined.

Lemma X18_name_witness :
  Animation.name
    (Animation.__init__ "20240101-120000" Animation.default_frequency
       (Some "crack.gif") Animation.default_sz Animation.default_dsf)
  = "crack.gif"%string
  /\ Animation.name
       (Animation.__init__ "20240101-120000" Animation.default_frequency
          (Some "") Animation.default_sz Animation.default_dsf)
     = "20240101-120000-animation.gif"%string.
Proof.
  split.
  - destruct (X18_animation_name_is_never_empty "20240101-120000"
                Animation.default_frequency (Some "crack.gif"%string)
                Animation.default_sz Animation.default_dsf)
      as (_ & Hkept & _).
    apply (Hkept "crack.gif"%string); [reflexivity|discriminate].
  - destruct (X18_animation_name_is_never_empty "20240101-120000"
                Animation.default_frequency (Some ""%string)
                Animation.default_sz Animation.default_dsf)
      as (_ & _ & Hgen).
    apply Hgen. right. reflexivity.
Defined.

Lemma X19_film_witness :
  Animation._get_data_from_frame Scenario.film 1 = Raise IndexError
  /\ Animation._get_data_from_frame Scenario.film (-1)
     = Animation._get_data_from_frame Scenario.film (-1 + 1).
Proof.
  destruct (X19_frame_index_wraps_or_raises Scenario.film 1) as [Hout _].
  destruct (X19_frame_index_wraps_or_raises Scenario.film (-1)) as [_ Hin].
  split.
  - apply Hout. right. cbn. lia.
  - apply Hin. cbn. lia.
Defined.

Lemma X20_film_witness :
  length (Animation.frames
            (Animation.save_frame Scenario.scatter_plot Scenario.film
               Scenario.triangle)) = 2%nat
  /\ Animation._get_data_from_frame
       (Animation.save_frame Scenario.scatter_plot Scenario.film
          Scenario.triangle) 0
     = Animation._get_data_from_frame Scenario.film 0.
Proof.
  destruct (X20_saved_frame_is_read_back Scenario.scatter_plot
              Scenario.film Scenario.triangle) as (Hlen & Hold & _ & _).
  split; [exact Hlen|]. apply Hold. cbn. lia.
Defined.

Lemma film_data :
  Animation._get_data_from_frame Scenario.film 0
  = Ok ([0; 4; 2], [0; 1; 3]).
Proof. reflexivity. Defined.

Lemma X21_film_witness :
  exists self' x_min x_max y_min y_max,
    Animation._set_axis_limits Scenario.film 0 = Ok self'
    /\ plt.xlim (Animation.ax self') = Some (x_min, x_max)
    /\ plt.ylim (Animation.ax self') = Some (y_min, y_max)
    /\ Forall (fun x => x_min <= x <= x_max) [0; 4; 2]
    /\ Forall (fun y => y_min <= y <= y_max) [0; 1; 3]
    /\ x_min ∈ [0; 4; 2] /\ x_max ∈ [0; 4; 2]
    /\ y_min ∈ [0; 1; 3] /\ y_max ∈ [0; 1; 3]
    /\ Animation.frames self' = Animation.frames Scenario.film
    /\ plt.collections (Animation.ax self')
       = plt.collections (Animation.ax Scenario.film).
Proof.
  destruct (X21_axis_limits_enclose_the_scatter Scenario.film 0
              [0; 4; 2] [0; 1; 3] film_data) as [_ Hfull].
  apply Hfull. discriminate.
Defined.

Lemma X22_film_witness :
  exists self' scatter,
    Animation._update Scenario.film 0 = Ok (self', scatter)
    /\ plt.offsets scatter = Scenario.triangle
    /\ plt.collections (Animation.ax self') = [scatter]
    /\ plt.title (Animation.ax self') = Some "frame 0"%string.
Proof.
  destruct (X22_update_redraws_from_the_frame_alone Scenario.film 0
              (Scenario.scatter_plot Scenario.triangle (plt.figure (12, 6))
                 Animation.default_sz Animation.default_dsf)
              {| plt.collections :=
                   [ {| plt.offsets := Scenario.triangle;
                        plt.sizes :=
                          map (fun _ => Animation.default_sz)
                            Scenario.triangle;
                        plt.array :=
                          map (fun _ => Animation.default_dsf)
                            Scenario.triangle;
                        plt.cmap := "jet" |} ];
                 plt.xlim := None; plt.ylim := None; plt.title := None;
                 plt.aspect := None; plt.axis := None |}
              {| plt.offsets := Scenario.triangle;
                 plt.sizes :=
                   map (fun _ => Animation.default_sz) Scenario.triangle;
                 plt.array :=
                   map (fun _ => Animation.default_dsf) Scenario.triangle;
                 plt.cmap := "jet" |}
              eq_refl eq_refl eq_refl) as (_ & _ & Hfull).
  destruct Hfull as (self' & scatter & Hup & Hoff & _ & _ & Hcoll & Htitle
                     & _).
  { discriminate. }
  exists self', scatter. split; [exact Hup|]. split; [exact Hoff|].
  split; [exact Hcoll|exact Htitle].
Defined.
